(** * Realistic HDR Video Converter: the page component [Home]

    A shallow embedding of the page component: its React state, the filter
    graph and engine command that [processVideo] builds, the engine loader
    [loadFFmpeg], the file and button handlers, and the log handler
    registered on the engine. Line numbers are those of the source listing.

    - JavaScript numbers are IEEE 754 binary64 values ([spec_float] with
      precision 53), with [Number.prototype.toFixed] written out.
    - An [async] function is run to completion in one go; what the external
      collaborators (dynamic imports, the FFmpeg engine) answer at each
      [await] is read from an oracle record, so every statement below
      quantifies over every behaviour of the engine whose promises settle.
    - Effects outside React state (engine calls, object URLs, console) are
      recorded in a chronological trace. The object URL of the source
      preview ([inputPreviewUrl]) is not tracked: only output URLs are. *)

From Stdlib Require Import ZArith List String Ascii Bool Arith Lia.
From Stdlib Require Import Floats.SpecFloat.
From Stdlib Require Import DecimalString.
Import ListNotations.
Open Scope string_scope.
Open Scope Z_scope.

(* ===================================================================== *)
(** * JavaScript numbers *)
(* ===================================================================== *)

Module Number.

Definition number := spec_float.
Definition prec : Z := 53.
Definition emax : Z := 1024.

Definition ofZ (z : Z) : number := binary_normalize prec emax z 0 false.
Definition add : number -> number -> number := SFadd prec emax.
Definition sub : number -> number -> number := SFsub prec emax.
Definition mul : number -> number -> number := SFmul prec emax.
Definition div : number -> number -> number := SFdiv prec emax.
Definition ltb : number -> number -> bool := SFltb.

(** A decimal literal [num / 10^k] of the source text denotes the binary64
    value nearest to it, which is the correctly rounded quotient of the two
    integers (both are exactly representable for the literals used here). *)
Definition lit (num den : Z) : number := div (ofZ num) (ofZ den).

Definition digits (n : Z) : string :=
  NilZero.string_of_uint (N.to_uint (Z.to_N n)).

Fixpoint zeros (k : nat) : string :=
  match k with
  | O => ""
  | S k' => String "0" (zeros k')
  end.

Fixpoint strip_zeros (s : list ascii) : list ascii :=
  match s with
  | "0"%char :: r => strip_zeros r
  | _ => s
  end.

Definition strip_trailing_zeros (s : string) : string :=
  string_of_list_ascii (rev (strip_zeros (rev (list_ascii_of_string s)))).

(** [reads_back m e v]: the integer [v] rounds (to nearest, ties to even) to
    the double [m * 2^e]; everything is doubled to stay in [Z]. *)
Definition reads_back (m : positive) (e : Z) (v : Z) : bool :=
  let c := 2 * (Zpos m * 2 ^ e) in
  let up := 2 ^ e in
  let down := if Pos.eqb m (2 ^ 52)%positive then 2 ^ (e - 1) else 2 ^ e in
  if Z.even (Zpos m)
  then (c - down <=? 2 * v) && (2 * v <=? c + up)
  else (c - down <? 2 * v) && (2 * v <? c + up).

(** Shortest decimal that reads back as [m * 2^e], trying [k] significant
    digits and then more; the closest one when two of that length do. *)
Fixpoint shortest (m : positive) (e : Z) (D : Z) (k : Z) (fuel : nat) : Z :=
  let X := Zpos m * 2 ^ e in
  match fuel with
  | O => X
  | S fuel' =>
      let p := 10 ^ (D - k) in
      let lo := (X / p) * p in
      let hi := lo + p in
      match reads_back m e lo, reads_back m e hi with
      | true, false => lo
      | false, true => hi
      | true, true =>
          match (X - lo ?= hi - X) with
          | Lt => lo
          | Gt => hi
          | Eq => if Z.even (X / p) then lo else hi
          end
      | false, false => shortest m e D (k + 1) fuel'
      end
  end.

(** [Number::toString] for a finite value of at least 10^21, the only case
    [toFixed] delegates to it: exponential notation of the shortest digits. *)
Definition toString_large (m : positive) (e : Z) : string :=
  let X := Zpos m * 2 ^ e in
  let D := Z.of_nat (String.length (digits X)) in
  let v := digits (shortest m e D 1 17) in
  let n := Z.of_nat (String.length v) in
  match strip_trailing_zeros v with
  | String d "" => String d "" ++ "e+" ++ digits (n - 1)
  | String d r => String d "" ++ "." ++ r ++ "e+" ++ digits (n - 1)
  | "" => ""
  end.

(** [x.toFixed(f)] (ECMA-262, Number.prototype.toFixed): non-finite values
    print by name; otherwise [n] is the integer nearest to [x * 10^f], the
    larger one on a tie, printed with [f] digits after the point. *)
Definition toFixed (f : nat) (x : number) : string :=
  match x with
  | S754_nan => "NaN"
  | S754_infinity false => "Infinity"
  | S754_infinity true => "-Infinity"
  | S754_zero _ => if Nat.eqb f 0 then "0" else "0." ++ zeros f
  | S754_finite s m e =>
      let sign := if s then "-" else "" in
      if 10 ^ 21 <=? Zpos m * 2 ^ e
      then sign ++ toString_large m e
      else
        let t := 10 ^ Z.of_nat f in
        let n := if 0 <=? e then t * Zpos m * 2 ^ e
                 else (2 * t * Zpos m + 2 ^ (- e)) / 2 ^ (1 - e) in
        let ds := digits n in
        let ds := zeros (f + 1 - String.length ds) ++ ds in
        let k := String.length ds in
        if Nat.eqb f 0 then sign ++ ds
        else sign ++ substring 0 (k - f) ds ++ "." ++ substring (k - f) f ds
  end.

End Number.

Import Number.

(* ===================================================================== *)
(** * Arrays *)
(* ===================================================================== *)

(** [arr.slice(-k)]: the last [k] elements, the whole array when shorter. *)
Definition slice_last {A : Type} (k : nat) (arr : list A) : list A :=
  skipn (List.length arr - k) arr.

(** [arr.join(sep)] *)
Definition join (sep : string) (arr : list string) : string :=
  String.concat sep arr.

(* ===================================================================== *)
(** * Component state *)
(* ===================================================================== *)

Inductive Stage :=
  | idle | loading_ffmpeg | ready | processing | completed | error.

Inductive ToneMapping := hable | mobius | reinhard.

(** The string a [ToneMapping] value is at run time. *)
Definition toneMapping_name (t : ToneMapping) : string :=
  match t with
  | hable => "hable"
  | mobius => "mobius"
  | reinhard => "reinhard"
  end.

Record File := mkFile { file_name : string; file_bytes : list Byte.byte }.

(** An object URL handed out by [URL.createObjectURL]. *)
Definition Url := nat.

(** The [useState] cells and the [useRef] of [Home]; [ffmpegRef] tells
    whether [ffmpegRef.current] holds an engine. *)
Record State := mkState {
  ffmpegRef : bool;
  stage : Stage;
  logMessages : list string;
  selectedFile : option File;
  outputUrl : option Url;
  intensity : number;
  toneMapping : ToneMapping;
  errorMessage : option string
}.

(** What the component does to the world around it. *)
Inductive Effect :=
  | ImportFFmpeg                (* import('@ffmpeg/ffmpeg'): a load begins *)
  | LoadFFmpeg                  (* ffmpeg.load(...) on a new FFmpeg() *)
  | WriteFile (name : string) (data : list Byte.byte)
  | Exec (args : list string)
  | ReadFile (name : string)
  | DeleteFile (name : string)
  | CreateObjectURL (url : Url) (data : list Byte.byte)
  | RevokeObjectURL (url : Url)
  | ConsoleError.

(** The browser side: object URLs that are live (created, not revoked), the
    next URL to hand out, the [loadFFmpeg] calls suspended at an [await],
    and the trace of effects, oldest first. *)
Record World := mkWorld {
  liveUrls : list Url;
  nextUrl : Url;
  loading : nat;
  effects : list Effect
}.

Record Sys := mkSys { page : State; world : World }.

(** Initial render: [useState] defaults, nothing loaded. *)
Definition initial : Sys :=
  mkSys (mkState false idle [] None None (lit 125 100) hable None)
        (mkWorld [] 0%nat 0%nat []).

(* ===================================================================== *)
(** * Filter graph and engine command (lines 111-152 of the page) *)
(* ===================================================================== *)

Definition inputName : string := "input-video.mp4".
Definition outputName : string := "hdr-output.mp4".

Definition saturation (intensity : number) : string :=
  toFixed 2 intensity.

Definition contrast (intensity : number) : string :=
  toFixed 2 (add (lit 9 10) (mul (sub intensity (ofZ 1)) (lit 8 10))).

Definition highlight (intensity : number) : string :=
  toFixed 2 (mul (lit 3 10) intensity).

Definition midtones (intensity : number) : string :=
  toFixed 2 (mul (lit 2 10) intensity).

(** The expression inlined in the [tonemap] stage. *)
Definition desat (intensity : number) : string :=
  toFixed 2 (div (lit 125 100) intensity).

Definition filterComplex (intensity : number) (toneMapping : ToneMapping)
  : list string :=
  [ "zscale=transfer=bt709:matrix=bt709:primaries=bt709";
    "split=3[luma][mid][hi]";
    "[luma]eq=gamma=" ++ contrast intensity ++ ":saturation="
      ++ saturation intensity ++ "[luma_adj]";
    "[mid]curves=preset=medium_contrast:intensity="
      ++ midtones intensity ++ "[mid_adj]";
    "[hi]curves=preset=strong_contrast:intensity="
      ++ highlight intensity ++ "[hi_adj]";
    "[luma_adj][mid_adj]blend=all_mode='screen'[mix1]";
    "[mix1][hi_adj]blend=all_mode='lighten'[pre_hdr]";
    "[pre_hdr]tonemap=" ++ toneMapping_name toneMapping ++ ":desat="
      ++ desat intensity ++ ":peak=1000[z]";
    "[z]zscale=matrix=bt2020ncl:primaries=bt2020:transfer=smpte2084,format=yuv420p10le"
  ].

Definition command (intensity : number) (toneMapping : ToneMapping)
  : list string :=
  [ "-i"; inputName;
    "-vf"; join ";" (filterComplex intensity toneMapping);
    "-c:v"; "libx265";
    "-preset"; "medium";
    "-pix_fmt"; "yuv420p10le";
    "-tag:v"; "hvc1";
    "-c:a"; "copy";
    outputName ].

(* ===================================================================== *)
(** * Effectful code: state plus exceptions *)
(* ===================================================================== *)

Local Open Scope list_scope.

(** How a statement completes: normally with a value, or by a throw (a
    rejected promise at an [await]). The code never inspects the error. *)
Inductive Completion (A : Type) :=
  | Normal (a : A)
  | Thrown.
Arguments Normal {A} a.
Arguments Thrown {A}.

Definition Async (A : Type) : Type := Sys -> Completion A * Sys.

Definition ret {A} (a : A) : Async A := fun s => (Normal a, s).

Definition throw {A} : Async A := fun s => (Thrown, s).

Definition bind {A B} (c : Async A) (k : A -> Async B) : Async B :=
  fun s =>
    match c s with
    | (Normal a, s') => k a s'
    | (Thrown, s') => (Thrown, s')
    end.

Notation "x <- c ;; k" := (bind c (fun x => k))
  (at level 61, c at next level, right associativity).
Notation "c ;; k" := (bind c (fun _ => k))
  (at level 61, right associativity).

(** [try { body } catch { handler }] *)
Definition try_catch {A} (body handler : Async A) : Async A :=
  fun s =>
    match body s with
    | (Normal a, s') => (Normal a, s')
    | (Thrown, s') => handler s'
    end.

(** [try { body } finally { finalizer }]: the finalizer always runs; the
    completion of the body stands unless the finalizer itself throws. *)
Definition try_finally {A} (body : Async A) (finalizer : Async unit)
  : Async A :=
  fun s =>
    let (r, s') := body s in
    match finalizer s' with
    | (Normal _, s'') => (r, s'')
    | (Thrown, s'') => (Thrown, s'')
    end.

Definition try_catch_finally {A} (body handler : Async A)
  (finalizer : Async unit) : Async A :=
  try_finally (try_catch body handler) finalizer.

Definition get_page : Async State := fun s => (Normal (page s), s).

Definition modify_page (f : State -> State) : Async unit :=
  fun s => (Normal tt, mkSys (f (page s)) (world s)).

Definition modify_world (f : World -> World) : Async unit :=
  fun s => (Normal tt, mkSys (page s) (f (world s))).

Definition emit (e : Effect) : Async unit :=
  modify_world (fun w =>
    mkWorld (liveUrls w) (nextUrl w) (loading w) (effects w ++ [e])).

(** ** State setters *)

Definition setStage (v : Stage) : Async unit :=
  modify_page (fun p =>
    mkState (ffmpegRef p) v (logMessages p) (selectedFile p) (outputUrl p)
            (intensity p) (toneMapping p) (errorMessage p)).

Definition setLogMessages (f : list string -> list string) : Async unit :=
  modify_page (fun p =>
    mkState (ffmpegRef p) (stage p) (f (logMessages p)) (selectedFile p)
            (outputUrl p) (intensity p) (toneMapping p) (errorMessage p)).

Definition setSelectedFile (v : option File) : Async unit :=
  modify_page (fun p =>
    mkState (ffmpegRef p) (stage p) (logMessages p) v (outputUrl p)
            (intensity p) (toneMapping p) (errorMessage p)).

Definition setOutputUrl (v : option Url) : Async unit :=
  modify_page (fun p =>
    mkState (ffmpegRef p) (stage p) (logMessages p) (selectedFile p) v
            (intensity p) (toneMapping p) (errorMessage p)).

Definition setIntensity (v : number) : Async unit :=
  modify_page (fun p =>
    mkState (ffmpegRef p) (stage p) (logMessages p) (selectedFile p)
            (outputUrl p) v (toneMapping p) (errorMessage p)).

Definition setToneMapping (v : ToneMapping) : Async unit :=
  modify_page (fun p =>
    mkState (ffmpegRef p) (stage p) (logMessages p) (selectedFile p)
            (outputUrl p) (intensity p) v (errorMessage p)).

Definition setErrorMessage (v : option string) : Async unit :=
  modify_page (fun p =>
    mkState (ffmpegRef p) (stage p) (logMessages p) (selectedFile p)
            (outputUrl p) (intensity p) (toneMapping p) v).

(** [ffmpegRef.current = ffmpeg] *)
Definition set_ffmpegRef : Async unit :=
  modify_page (fun p =>
    mkState true (stage p) (logMessages p) (selectedFile p) (outputUrl p)
            (intensity p) (toneMapping p) (errorMessage p)).

(** ** Browser services *)

Definition URL_createObjectURL (data : list Byte.byte) : Async Url :=
  fun s =>
    let w := world s in
    let url := nextUrl w in
    (Normal url,
     mkSys (page s)
           (mkWorld (liveUrls w ++ [url]) (S url) (loading w)
                    (effects w ++ [CreateObjectURL url data]))).

Definition URL_revokeObjectURL (url : Url) : Async unit :=
  modify_world (fun w =>
    mkWorld (remove Nat.eq_dec url (liveUrls w)) (nextUrl w) (loading w)
            (effects w ++ [RevokeObjectURL url])).

Definition console_error : Async unit := emit ConsoleError.

(** ** The log handler (lines 63-68)

    [ffmpeg.on('log', ({ message }) => setLogMessages(prev =>
       [...prev.slice(-24), message]))] *)

Definition appendLog (prev : list string) (message : string) : list string :=
  slice_last 24 prev ++ [message].

Definition onLog (message : string) : Async unit :=
  setLogMessages (fun prev => appendLog prev message).

Fixpoint deliver (lines : list string) : Async unit :=
  match lines with
  | [] => ret tt
  | l :: rest => onLog l ;; deliver rest
  end.

(** ** The engine, seen from one run of an async function

    What each awaited call answers, and the log lines the engine emits
    while it serves a call. The handler above is the only listener. *)
Record Engine := mkEngine {
  import_util_ok : bool;                      (* import('@ffmpeg/util') *)
  fetchFile_ok : bool;                        (* fetchFile(selectedFile) *)
  writeFile_ok : bool;
  exec_ok : bool;
  readFile_result : option (list Byte.byte);
  deleteFile_ok : string -> bool;
  emits : Effect -> list string
}.

Definition settle (ok : bool) : Async unit :=
  if ok then ret tt else throw.

Definition engine_call (eng : Engine) (e : Effect) (ok : bool) : Async unit :=
  emit e ;; deliver (emits eng e) ;; settle ok.

Definition import_util (eng : Engine) : Async unit :=
  settle (import_util_ok eng).

Definition fetchFile (eng : Engine) (f : File) : Async (list Byte.byte) :=
  settle (fetchFile_ok eng) ;; ret (file_bytes f).

Definition ffmpeg_writeFile (eng : Engine) (name : string)
  (data : list Byte.byte) : Async unit :=
  engine_call eng (WriteFile name data) (writeFile_ok eng).

Definition ffmpeg_exec (eng : Engine) (args : list string) : Async unit :=
  engine_call eng (Exec args) (exec_ok eng).

Definition ffmpeg_readFile (eng : Engine) (name : string)
  : Async (list Byte.byte) :=
  emit (ReadFile name) ;; deliver (emits eng (ReadFile name)) ;;
  match readFile_result eng with
  | Some data => ret data
  | None => throw
  end.

Definition ffmpeg_deleteFile (eng : Engine) (name : string) : Async unit :=
  engine_call eng (DeleteFile name) (deleteFile_ok eng name).

(* ===================================================================== *)
(** * The handlers of [Home] *)
(* ===================================================================== *)

Definition Stage_eqb (a b : Stage) : bool :=
  match a, b with
  | idle, idle | loading_ffmpeg, loading_ffmpeg | ready, ready
  | processing, processing | completed, completed | error, error => true
  | _, _ => false
  end.

(** ** [loadFFmpeg] (lines 50-86)

    The call runs synchronously up to its first [await] and is then
    suspended; [loadFFmpeg_resume] is the rest, run when the awaited
    promises settle. [stage] in the guard is the constant of the render
    that created the effect: it is [captured] by the closure, and
    [setStage] does not change it. [ffmpegRef.current] is read from the
    ref at the time of the call. *)

Inductive Call := Returned | Suspended.

Record Loader := mkLoader {
  imports_ok : bool;         (* the two dynamic imports *)
  toBlobURL_ok : bool;       (* fetching the three core assets *)
  load_ok : bool;            (* ffmpeg.load *)
  load_emits : list string   (* lines logged while loading *)
}.

Definition add_loading (w : World) : World :=
  mkWorld (liveUrls w) (nextUrl w) (S (loading w)) (effects w).

Definition sub_loading (w : World) : World :=
  mkWorld (liveUrls w) (nextUrl w) (pred (loading w)) (effects w).

Definition loadFFmpeg_call (captured : Stage) : Async Call :=
  p <- get_page ;;
  if ffmpegRef p || Stage_eqb captured loading_ffmpeg then ret Returned
  else
    setStage loading_ffmpeg ;;
    emit ImportFFmpeg ;;
    modify_world add_loading ;;
    ret Suspended.

Definition loadFFmpeg_resume (ld : Loader) : Async unit :=
  modify_world sub_loading ;;
  try_catch
    ( settle (imports_ok ld) ;;
      settle (toBlobURL_ok ld) ;;
      emit LoadFFmpeg ;;
      deliver (load_emits ld) ;;
      settle (load_ok ld) ;;
      set_ffmpegRef ;;
      setStage ready )
    ( console_error ;;
      setErrorMessage
        (Some "Failed to initialize the HDR engine. Refresh and try again.") ;;
      setStage error ).

(** ** [setOutputUrl(previous => { if (previous) revoke(previous); return null })]
    (lines 92-97 and 183-188) *)
Definition revoke_outputUrl : Async unit :=
  p <- get_page ;;
  match outputUrl p with
  | Some previous => URL_revokeObjectURL previous
  | None => ret tt
  end ;;
  setOutputUrl None.

(** ** [handleFileChange] (lines 88-100); [file] is [event.target.files?.[0]] *)
Definition handleFileChange (file : option File) : Async unit :=
  match file with
  | Some f =>
      setSelectedFile (Some f) ;;
      revoke_outputUrl ;;
      p <- get_page ;;
      setStage (if ffmpegRef p then ready else stage p)
  | None => ret tt
  end.

(** ** [processVideo] (lines 102-179) *)

Definition conversion_failed : string :=
  "Conversion failed. Try lowering intensity or using a shorter clip.".

(** Lines 107-109, the part that runs before the first [await]. *)
Definition processVideo_prologue : Async unit :=
  setStage processing ;;
  setErrorMessage None ;;
  setLogMessages (fun _ => []).

Definition processVideo (eng : Engine) : Async unit :=
  p <- get_page ;;
  match ffmpegRef p, selectedFile p with
  | true, Some file =>
      processVideo_prologue ;;
      try_catch_finally
        ( import_util eng ;;
          data <- fetchFile eng file ;;
          ffmpeg_writeFile eng inputName data ;;
          ffmpeg_exec eng (command (intensity p) (toneMapping p)) ;;
          fileData <- ffmpeg_readFile eng outputName ;;
          url <- URL_createObjectURL fileData ;;
          setOutputUrl (Some url) ;;
          setStage completed )
        ( console_error ;;
          setErrorMessage (Some conversion_failed) ;;
          setStage error )
        ( q <- get_page ;;
          if ffmpegRef q then
            try_catch (ffmpeg_deleteFile eng inputName) (ret tt) ;;
            try_catch (ffmpeg_deleteFile eng outputName) (ret tt)
          else ret tt )
  | _, _ => ret tt
  end.

(** ** Controls (lines 207-208, 248-264, 273-294) *)

Definition isProcessing (p : State) : bool := Stage_eqb (stage p) processing.

Definition isReady (p : State) : bool :=
  Stage_eqb (stage p) ready || Stage_eqb (stage p) completed
  || Stage_eqb (stage p) idle || Stage_eqb (stage p) error.

Definition fileInput_disabled (p : State) : bool := negb (isReady p).

Definition convertButton_disabled (p : State) : bool :=
  match selectedFile p with None => true | Some _ => false end
  || negb (isReady p) || isProcessing p.

(** A disabled control dispatches no event. *)
Definition fileInput_onChange (file : option File) : Async unit :=
  p <- get_page ;;
  if fileInput_disabled p then ret tt else handleFileChange file.

Definition convertButton_onClick (eng : Engine) : Async unit :=
  p <- get_page ;;
  if convertButton_disabled p then ret tt else processVideo eng.

(** ** The cleanup of lines 181-190

    On unmount the cleanup calls [setOutputUrl] with the revoking updater.
    The call only queues the updater: it runs if React processes the queued
    update, which it need not do for a component that is going away. *)
Definition unmount_cleanup (processed : bool) : Async unit :=
  if processed then revoke_outputUrl else ret tt.

(** ** Everything that can happen to the page

    [EffectRun] is the effect of the latest render: its closure captured
    the stage the page has now. [EffectRerun] is one more run of the effect
    of some render, with the stage that render captured (React runs the
    effects of a mount twice in development). *)

Inductive Event :=
  | EffectRun                          (* the effect of lines 50-86 fires *)
  | LoadSettles (ld : Loader)          (* a suspended loadFFmpeg goes on *)
  | FileInputChange (file : option File)
  | ConvertClick (eng : Engine)
  | EngineLog (message : string)       (* the engine emits a 'log' event *)
  | IntensityChange (v : number)       (* parseFloat(event.target.value) *)
  | ToneMappingChange (v : ToneMapping)
  | Unmount (processed : bool)
  | EffectRerun (captured : Stage).

Definition handle (ev : Event) : Async unit :=
  match ev with
  | EffectRun => p <- get_page ;; loadFFmpeg_call (stage p) ;; ret tt
  | LoadSettles ld =>
      fun s => if Nat.eqb (loading (world s)) 0 then (Normal tt, s)
               else loadFFmpeg_resume ld s
  | FileInputChange file => fileInput_onChange file
  | ConvertClick eng => convertButton_onClick eng
  | EngineLog message => onLog message
  | IntensityChange v => setIntensity v
  | ToneMappingChange v => setToneMapping v
  | Unmount processed => unmount_cleanup processed
  | EffectRerun captured => loadFFmpeg_call captured ;; ret tt
  end.

Definition step (s : Sys) (ev : Event) : Sys := snd (handle ev s).

Definition run (evs : list Event) (s : Sys) : Sys := fold_left step evs s.

(** States the page can be in. *)
Definition reachable (s : Sys) : Prop := exists evs, s = run evs initial.

(** ** Reading traces *)

Definition is_deleteFile (name : string) (e : Effect) : bool :=
  match e with DeleteFile n => String.eqb n name | _ => false end.

(** An initialization is started by the import that opens [loadFFmpeg]'s
    [try] block. *)
Definition is_import (e : Effect) : bool :=
  match e with ImportFFmpeg => true | _ => false end.

Definition is_delete (e : Effect) : bool :=
  match e with DeleteFile _ => true | _ => false end.

Definition is_url_effect (e : Effect) : bool :=
  match e with CreateObjectURL _ _ | RevokeObjectURL _ => true | _ => false end.

Definition count (f : Effect -> bool) (tr : list Effect) : nat :=
  List.length (filter f tr).

(** A job succeeds when every awaited step of its [try] block resolves. *)
Definition job_succeeds (eng : Engine) : bool :=
  import_util_ok eng && fetchFile_ok eng && writeFile_ok eng && exec_ok eng
  && match readFile_result eng with Some _ => true | None => false end.

(** ** Sample collaborators *)

Definition quiet : Effect -> list string := fun _ => [].

Definition engine_ok : Engine :=
  mkEngine true true true true (Some [Byte.x00]) (fun _ => true) quiet.

Definition engine_exec_fails : Engine :=
  mkEngine true true true false None (fun _ => false) quiet.

Definition loader_ok : Loader := mkLoader true true true [].

Definition clip : File := mkFile "clip.mp4" [Byte.x01; Byte.x02].

(** Engine loaded, a clip chosen, nothing converted yet. *)
Definition prepared : Sys :=
  run [EffectRun; LoadSettles loader_ok; FileInputChange (Some clip)] initial.

(** The page after the handler has received [lines], in order. *)
Definition logged (lines : list string) (p : State) : State :=
  mkState (ffmpegRef p) (stage p) (fold_left appendLog lines (logMessages p))
          (selectedFile p) (outputUrl p) (intensity p) (toneMapping p)
          (errorMessage p).

Definition is_revoke (e : Effect) : bool :=
  match e with RevokeObjectURL _ => true | _ => false end.

(** The page with its log buffer replaced. *)
Definition with_logMessages (logs : list string) (s : Sys) : Sys :=
  snd (setLogMessages (fun _ => logs) s).

(** The engine that answers deletions as [d] says and is [eng] otherwise. *)
Definition with_deleteFile (d : string -> bool) (eng : Engine) : Engine :=
  mkEngine (import_util_ok eng) (fetchFile_ok eng) (writeFile_ok eng)
           (exec_ok eng) (readFile_result eng) d (emits eng).

(** Events in which every run of the effect is that of the latest render. *)
Definition fresh_event (ev : Event) : Prop :=
  match ev with EffectRerun _ => False | _ => True end.

(** At most one [loadFFmpeg] is suspended, and only while the stage says so
    and no engine is held. *)
Definition load_invariant (s : Sys) : Prop :=
  loading (world s) = 0%nat
  \/ (loading (world s) = 1%nat
      /\ stage (page s) = loading_ffmpeg
      /\ ffmpegRef (page s) = false).

(** Thirty distinct lines, "A", "B", ... *)
Definition thirty_lines : list string :=
  map (fun n => String (ascii_of_nat (65 + n)) "") (seq 0 30).

(** A job in flight: the page right after [processVideo] reached its first
    [await]. *)
Definition in_flight : Sys := snd (processVideo_prologue prepared).

(** The argument list of the end-to-end scenario (intensity 1.0, hable). *)
Definition command_1_hable : list string :=
  [ "-i"; "input-video.mp4"; "-vf";
    "zscale=transfer=bt709:matrix=bt709:primaries=bt709;split=3[luma][mid][hi];[luma]eq=gamma=0.90:saturation=1.00[luma_adj];[mid]curves=preset=medium_contrast:intensity=0.20[mid_adj];[hi]curves=preset=strong_contrast:intensity=0.30[hi_adj];[luma_adj][mid_adj]blend=all_mode='screen'[mix1];[mix1][hi_adj]blend=all_mode='lighten'[pre_hdr];[pre_hdr]tonemap=hable:desat=1.25:peak=1000[z];[z]zscale=matrix=bt2020ncl:primaries=bt2020:transfer=smpte2084,format=yuv420p10le";
    "-c:v"; "libx265"; "-preset"; "medium"; "-pix_fmt"; "yuv420p10le";
    "-tag:v"; "hvc1"; "-c:a"; "copy"; "hdr-output.mp4" ].

(** What one event may do to the engine side of [s]: a held engine stays
    held, and no initialization is started once it is held. *)
Record engine_frame (s s' : Sys) : Prop := {
  frame_ref : ffmpegRef (page s) = true -> ffmpegRef (page s') = true;
  frame_import : ffmpegRef (page s) = true ->
                 count is_import (effects (world s'))
                 = count is_import (effects (world s))
}.

(* ===================================================================== *)
(** * More readings of traces, loaders and parameters *)
(* ===================================================================== *)

Definition is_writeFile (e : Effect) : bool :=
  match e with WriteFile _ _ => true | _ => false end.

Definition is_exec (e : Effect) : bool :=
  match e with Exec _ => true | _ => false end.

Definition is_readFile (e : Effect) : bool :=
  match e with ReadFile _ => true | _ => false end.

Definition is_create (e : Effect) : bool :=
  match e with CreateObjectURL _ _ => true | _ => false end.

Definition is_consoleError (e : Effect) : bool :=
  match e with ConsoleError => true | _ => false end.

(** A load succeeds when every awaited step of its [try] block resolves. *)
Definition loader_succeeds (ld : Loader) : bool :=
  imports_ok ld && toBlobURL_ok ld && load_ok ld.

(** The message of line 80. *)
Definition init_failed : string :=
  "Failed to initialize the HDR engine. Refresh and try again.".

Definition loader_fails : Loader := mkLoader true true false ["boot"].

(** An engine that logs while it executes and while it deletes. *)
Definition engine_chatty : Engine :=
  mkEngine true true true true (Some [Byte.x00]) (fun _ => true)
    (fun e => match e with
              | Exec _ => ["frame=1"; "frame=2"]
              | DeleteFile _ => ["rm"]
              | _ => []
              end).

(** Object URLs: no live URL is listed twice, every live URL was handed
    out, the exposed URL is live, and live = created - revoked. *)
Definition url_invariant (s : Sys) : Prop :=
  NoDup (liveUrls (world s))
  /\ Forall (fun u => (u < nextUrl (world s))%nat) (liveUrls (world s))
  /\ (forall u, outputUrl (page s) = Some u -> In u (liveUrls (world s)))
  /\ (List.length (liveUrls (world s))
      + count is_revoke (effects (world s))
      = count is_create (effects (world s)))%nat.

(** Which stages go with an engine held, and when a result is exposed. *)
Definition stage_invariant (s : Sys) : Prop :=
  let p := page s in
  (ffmpegRef p = true ->
     stage p = ready \/ stage p = completed \/ stage p = error)
  /\ (ffmpegRef p = false ->
     stage p = idle \/ stage p = loading_ffmpeg \/ stage p = error)
  /\ (outputUrl p <> None -> ffmpegRef p = true /\ selectedFile p <> None).

(** ** The intensity slider (lines 273-281): min 1, max 1.7, step 0.05

    Position [k] (0 to 14) has the value 1 + 0.05 k, that is the decimal
    (100 + 5 k) / 100, and [parseFloat] gives the double nearest to it. *)
Definition sliderValue (k : nat) : number := lit (100 + 5 * Z.of_nat k) 100.

(** [n] hundredths printed with two decimals. *)
Definition two_decimals (n : Z) : string :=
  let ds := digits n in
  let ds := (zeros (3 - String.length ds) ++ ds)%string in
  let k := String.length ds in
  (substring 0 (k - 2) ds ++ "." ++ substring (k - 2) 2 ds)%string.

(** The rational [num / den] rounded to two decimals in exact arithmetic,
    ties going up; and cut after two decimals. *)
Definition round2_exact (num den : Z) : string :=
  two_decimals ((200 * num + den) / (2 * den)).

Definition trunc2_exact (num den : Z) : string :=
  two_decimals ((100 * num) / den).

(** The slider positions at which the printed highlight strength is below
    the exactly rounded one. *)
Definition highlight_low (k : nat) : bool :=
  Nat.eqb k 3 || Nat.eqb k 9 || Nat.eqb k 11 || Nat.eqb k 13.

(** The derived parameters at slider position [k] against exact decimal
    arithmetic on 1 + 0.05 k. *)
Definition slider_row (k : nat) : Prop :=
  let x := sliderValue k in
  let z := Z.of_nat k in
  saturation x = round2_exact (100 + 5 * z) 100
  /\ contrast x = round2_exact (90 + 4 * z) 100
  /\ midtones x = round2_exact (20 + z) 100
  /\ desat x = round2_exact 125 (100 + 5 * z)
  /\ highlight x = (if highlight_low k
                    then trunc2_exact (300 + 15 * z) 1000
                    else round2_exact (300 + 15 * z) 1000)
  /\ String.eqb (highlight x) (round2_exact (300 + 15 * z) 1000)
     = negb (highlight_low k).

(** ** The source preview (lines 192-205)

    [inputPreviewUrl] is a [useMemo] over [selectedFile]; an effect over
    [inputPreviewUrl] returns the cleanup that revokes it. The preview has
    a record of its own: the URL the memo holds, the preview URLs that are
    live, the next URL to hand out and the trace. *)
Record Preview := mkPreview {
  inputPreviewUrl : option Url;
  previewLive : list Url;
  previewNext : Url;
  previewEffects : list Effect
}.

Definition preview_initial : Preview := mkPreview None [] 0%nat [].

(** The memo body (lines 192-197). *)
Definition preview_memo (selectedFile : option File) (pv : Preview)
  : Preview :=
  match selectedFile with
  | None =>
      mkPreview None (previewLive pv) (previewNext pv) (previewEffects pv)
  | Some f =>
      let url := previewNext pv in
      mkPreview (Some url) (previewLive pv ++ [url]) (S url)
                (previewEffects pv ++ [CreateObjectURL url (file_bytes f)])
  end.

(** The cleanup the effect returns (lines 200-204), run with the URL the
    effect was created with. *)
Definition preview_cleanup (captured : option Url) (pv : Preview) : Preview :=
  match captured with
  | Some url =>
      mkPreview (inputPreviewUrl pv)
                (remove Nat.eq_dec url (previewLive pv)) (previewNext pv)
                (previewEffects pv ++ [RevokeObjectURL url])
  | None => pv
  end.

(** A render in which [selectedFile] has changed: the memo is recomputed
    during the render, and on commit the cleanup of the previous effect runs
    with the URL it captured. *)
Definition preview_render (selectedFile : option File) (pv : Preview)
  : Preview :=
  preview_cleanup (inputPreviewUrl pv) (preview_memo selectedFile pv).

(** Unmounting runs the cleanup of the current effect. *)
Definition preview_unmount (pv : Preview) : Preview :=
  preview_cleanup (inputPreviewUrl pv) pv.

Definition preview_run (files : list (option File)) (pv : Preview)
  : Preview :=
  fold_left (fun pv f => preview_render f pv) files pv.

Definition preview_invariant (pv : Preview) : Prop :=
  previewLive pv
    = match inputPreviewUrl pv with Some u => [u] | None => [] end
  /\ (forall u, inputPreviewUrl pv = Some u -> (u < previewNext pv)%nat).

(* ===================================================================== *)
(** * Proof tools *)
(* ===================================================================== *)

Ltac unfold_async :=
  unfold processVideo, processVideo_prologue, handleFileChange,
    unmount_cleanup, revoke_outputUrl, loadFFmpeg_call, loadFFmpeg_resume,
    convertButton_onClick, fileInput_onChange,
    try_catch_finally, try_finally,
    try_catch, import_util, fetchFile, ffmpeg_writeFile, ffmpeg_exec,
    ffmpeg_readFile, ffmpeg_deleteFile, engine_call, console_error,
    URL_createObjectURL, URL_revokeObjectURL, onLog, setStage, setErrorMessage,
    setLogMessages, setOutputUrl, setSelectedFile, setIntensity,
    setToneMapping, set_ffmpegRef, emit, modify_page,
    modify_world, get_page, settle, bind, ret, throw.

(** Equations that run a delivered batch of log lines in one step. *)
Create Rewrite HintDb async.

Ltac run_async :=
  unfold_async; cbn -[deliver command appendLog count];
  repeat (progress autorewrite with async;
          cbn -[deliver command appendLog count]).

(** Case analysis on everything the engine may answer during one job. *)
Ltac split_engine eng :=
  let i := fresh "imp" in let f := fresh "fet" in let wr := fresh "wr" in
  let ex := fresh "ex" in let rd := fresh "rd" in let del := fresh "del" in
  let em := fresh "em" in
  destruct eng as [i f wr ex rd del em];
  run_async;
  destruct i; run_async;
  [ destruct f; run_async;
    [ destruct wr; run_async;
      [ destruct ex; run_async; [ destruct rd; run_async | ] | ] | ] | ];
  destruct (del inputName); run_async;
  destruct (del outputName); run_async.

(** Exhibits the effects a handler added to the trace. *)
Ltac trace_tail :=
  repeat rewrite <- app_assoc; eexists; split; [reflexivity | ].

(* ===================================================================== *)
(** * Arrays: the last [k] elements *)
(* ===================================================================== *)

Section SliceLast.
Context {A : Type}.
Implicit Types (l : list A) (k : nat).

Lemma slice_last_snoc k l (x : A) :
  slice_last (S k) (l ++ [x]) = slice_last k l ++ [x].
Proof.
  unfold slice_last. rewrite length_app. cbn [List.length].
  replace (List.length l + 1 - S k)%nat with (List.length l - k)%nat by lia.
  rewrite skipn_app.
  replace (List.length l - k - List.length l)%nat with 0%nat by lia.
  reflexivity.
Qed.

Lemma slice_last_twice k k' l :
  (k <= k')%nat -> slice_last k (slice_last k' l) = slice_last k l.
Proof.
  intros Hk. unfold slice_last. rewrite skipn_skipn, length_skipn.
  f_equal. lia.
Qed.

Lemma length_slice_last k l :
  List.length (slice_last k l) = Nat.min k (List.length l).
Proof. unfold slice_last. rewrite length_skipn. lia. Qed.

Lemma slice_last_short k l :
  (List.length l <= k)%nat -> slice_last k l = l.
Proof.
  intros H. unfold slice_last.
  replace (List.length l - k)%nat with 0%nat by lia. reflexivity.
Qed.
End SliceLast.

(* ===================================================================== *)
(** * The log handler *)
(* ===================================================================== *)

Lemma appendLog_last_25 (prev : list string) (message : string) :
  appendLog prev message = slice_last 25 (prev ++ [message]).
Proof. unfold appendLog. now rewrite slice_last_snoc. Qed.

Lemma fold_appendLog (lines buf : list string) :
  (List.length buf <= 25)%nat ->
  fold_left appendLog lines buf = slice_last 25 (buf ++ lines).
Proof.
  intros Hbuf. induction lines as [|x lines IH] using rev_ind.
  - cbn. rewrite app_nil_r. symmetry. now apply slice_last_short.
  - rewrite fold_left_app. cbn [fold_left]. rewrite IH.
    unfold appendLog. rewrite slice_last_twice by lia.
    rewrite app_assoc. now rewrite slice_last_snoc.
Qed.

Lemma deliver_spec (lines : list string) (s : Sys) :
  deliver lines s = (Normal tt, mkSys (logged lines (page s)) (world s)).
Proof.
  revert s. induction lines as [|l lines IH]; intros [p w].
  - destruct p; reflexivity.
  - cbn [deliver]. unfold bind at 1. cbn. rewrite IH. reflexivity.
Qed.

#[global] Hint Rewrite deliver_spec : async.

Lemma run_logs (lines : list string) (s : Sys) :
  run (map EngineLog lines) s = mkSys (logged lines (page s)) (world s).
Proof.
  revert s. induction lines as [|l lines IH]; intros [p w].
  - destruct p; reflexivity.
  - cbn [map run fold_left]. fold (run (map EngineLog lines)).
    rewrite IH. destruct p; reflexivity.
Qed.

(* ===================================================================== *)
(** * What [processVideo] does and leaves alone *)
(* ===================================================================== *)

Lemma count_app (f : Effect -> bool) (a b : list Effect) :
  count f (a ++ b) = (count f a + count f b)%nat.
Proof. unfold count. now rewrite filter_app, length_app. Qed.

Lemma processVideo_guard (eng : Engine) (s : Sys) :
  ffmpegRef (page s) = false \/ selectedFile (page s) = None ->
  processVideo eng s = (Normal tt, s).
Proof.
  destruct s as [p w]. destruct p as [ref st logs sel out int tm err]. cbn.
  intros [-> | ->]; [ | destruct ref]; reflexivity.
Qed.

Lemma processVideo_frame (eng : Engine) (s : Sys) :
  let r := processVideo eng s in
  fst r = Normal tt
  /\ ffmpegRef (page (snd r)) = ffmpegRef (page s)
  /\ loading (world (snd r)) = loading (world s)
  /\ selectedFile (page (snd r)) = selectedFile (page s)
  /\ intensity (page (snd r)) = intensity (page s)
  /\ toneMapping (page (snd r)) = toneMapping (page s)
  /\ exists tr, effects (world (snd r)) = effects (world s) ++ tr
                /\ count is_import tr = 0%nat.
Proof.
  destruct s as [p w]. destruct p as [ref st logs sel out int tm err].
  destruct ref, sel as [file|];
    try (cbn; repeat split; exists []; now rewrite app_nil_r).
  split_engine eng.
  all: repeat split; trace_tail; reflexivity.
Qed.

Lemma processVideo_outcome (eng : Engine) (s : Sys) (file : File) :
  ffmpegRef (page s) = true -> selectedFile (page s) = Some file ->
  let s' := snd (processVideo eng s) in
  stage (page s') = (if job_succeeds eng then completed else error)
  /\ errorMessage (page s') =
       (if job_succeeds eng then None else Some conversion_failed).
Proof.
  destruct s as [p w]. destruct p as [ref st logs sel out int tm err].
  cbn. intros -> ->. unfold job_succeeds.
  split_engine eng. all: split; reflexivity.
Qed.

Lemma processVideo_exec (eng : Engine) (s : Sys) (file : File) :
  ffmpegRef (page s) = true -> selectedFile (page s) = Some file ->
  import_util_ok eng && fetchFile_ok eng && writeFile_ok eng = true ->
  In (Exec (command (intensity (page s)) (toneMapping (page s))))
     (effects (world (snd (processVideo eng s)))).
Proof.
  destruct s as [p w]. destruct p as [ref st logs sel out int tm err].
  cbn. intros -> -> H.
  split_engine eng; try discriminate H.
  all: repeat rewrite <- app_assoc; apply in_or_app; right; cbn; auto.
Qed.

(* ===================================================================== *)
(** * The engine across events *)
(* ===================================================================== *)

Lemma handleFileChange_frame (file : option File) (s : Sys) :
  let s' := snd (handleFileChange file s) in
  ffmpegRef (page s') = ffmpegRef (page s)
  /\ loading (world s') = loading (world s)
  /\ count is_import (effects (world s'))
     = count is_import (effects (world s))
  /\ (stage (page s') = loading_ffmpeg -> stage (page s) = loading_ffmpeg).
Proof.
  destruct s as [p w]. destruct p as [ref st logs sel out int tm err].
  destruct file as [f|]; [ | cbn; auto].
  destruct out as [u|], ref; run_async; repeat split; auto;
    try discriminate; rewrite ?count_app; cbn; lia.
Qed.

Lemma loadFFmpeg_resume_frame (ld : Loader) (s : Sys) :
  let s' := snd (loadFFmpeg_resume ld s) in
  loading (world s') = pred (loading (world s))
  /\ (ffmpegRef (page s) = true -> ffmpegRef (page s') = true).
Proof.
  destruct s as [p w]. destruct p as [ref st logs sel out int tm err].
  destruct ld as [i b l em]. run_async.
  destruct i; run_async; [destruct b; run_async; [destruct l; run_async | ] | ];
    auto.
Qed.

Lemma loadFFmpeg_call_held (captured : Stage) (s : Sys) :
  ffmpegRef (page s) = true \/ captured = loading_ffmpeg ->
  loadFFmpeg_call captured s = (Normal Returned, s).
Proof.
  destruct s as [p w]. destruct p as [ref st logs sel out int tm err].
  cbn. intros [-> | ->]; unfold loadFFmpeg_call, bind, get_page, ret; cbn;
    rewrite ?orb_true_r; reflexivity.
Qed.

Lemma step_engine_frame (s : Sys) (ev : Event) : engine_frame s (step s ev).
Proof.
  destruct ev as [ | ld | file | eng | message | v | v | processed | captured ];
    unfold step, handle.
  - (* EffectRun *)
    unfold bind at 1, get_page. cbn [fst snd].
    split; intros Href; unfold bind;
      rewrite (loadFFmpeg_call_held _ s (or_introl Href)); auto.
  - (* LoadSettles *)
    destruct (Nat.eqb (loading (world s)) 0); [ split; auto | ].
    destruct s as [p w]. destruct p as [ref st logs sel out int tm err].
    destruct ld as [i b l em]. run_async.
    destruct i; run_async;
      [destruct b; run_async; [destruct l; run_async | ] | ].
    all: split; cbn -[count]; auto; intros _; rewrite ?count_app; cbn;
      unfold count; lia.
  - (* FileInputChange *)
    unfold fileInput_onChange, bind, get_page; cbn.
    destruct (fileInput_disabled (page s)); [ split; auto | ].
    destruct (handleFileChange_frame file s) as (Hr & Hl & Hc & Hs).
    split; congruence.
  - (* ConvertClick *)
    unfold convertButton_onClick, bind, get_page; cbn.
    destruct (convertButton_disabled (page s)); [ split; auto | ].
    destruct (processVideo_frame eng s)
      as (_ & Hr & Hl & _ & _ & _ & tr & Htr & Hc).
    split; try congruence.
    intros _. rewrite Htr, count_app, Hc. lia.
  - (* EngineLog *)
    destruct s as [p w]. destruct p; split; auto.
  - (* IntensityChange *)
    destruct s as [p w]. destruct p; split; auto.
  - (* ToneMappingChange *)
    destruct s as [p w]. destruct p; split; auto.
  - (* Unmount *)
    destruct s as [p w]. destruct p as [ref st logs sel out int tm err].
    destruct processed, out; run_async; split; cbn -[count]; auto.
    intros _. rewrite count_app. cbn. lia.
  - (* EffectRerun *)
    split; intros Href; unfold bind;
      rewrite (loadFFmpeg_call_held captured s (or_introl Href)); auto.
Qed.

Lemma run_engine_held (evs : list Event) (s : Sys) :
  ffmpegRef (page s) = true ->
  ffmpegRef (page (run evs s)) = true
  /\ count is_import (effects (world (run evs s)))
     = count is_import (effects (world s)).
Proof.
  revert s. induction evs as [|ev evs IH]; intros s Href; [now split | ].
  change (run (ev :: evs) s) with (run evs (step s ev)).
  destruct (step_engine_frame s ev) as [Hr Hc].
  destruct (IH (step s ev) (Hr Href)) as [IH1 IH2].
  split; [exact IH1 | ].
  rewrite IH2. now apply Hc.
Qed.

(** With one run of the effect per render, the load invariant is kept. *)
Lemma step_load_invariant (s : Sys) (ev : Event) :
  fresh_event ev -> load_invariant s -> load_invariant (step s ev).
Proof.
  destruct ev as [ | ld | file | eng | message | v | v | processed | captured ];
    intros Hfresh; try contradiction; unfold step, handle.
  - (* EffectRun *)
    destruct s as [p w]. destruct p as [ref st logs sel out int tm err].
    destruct ref; [ auto | ].
    destruct st; auto; unfold load_invariant; cbn;
      intros [-> | (_ & H & _)]; try discriminate; auto.
  - (* LoadSettles *)
    destruct (Nat.eqb (loading (world s)) 0) eqn:E; [ auto | ].
    apply Nat.eqb_neq in E.
    destruct (loadFFmpeg_resume_frame ld s) as [Hl Hr].
    intros [H0 | (H1 & _)]; [contradiction | ].
    left. rewrite Hl, H1. reflexivity.
  - (* FileInputChange: the input is disabled while loading *)
    unfold fileInput_onChange, bind, get_page; cbn.
    destruct (fileInput_disabled (page s)) eqn:E; [ auto | ].
    destruct (handleFileChange_frame file s) as (Hr & Hl & Hc & Hs).
    unfold load_invariant. rewrite Hl. intros [H0 | (H1 & Hst & _)]; auto.
    unfold fileInput_disabled, isReady in E. rewrite Hst in E. discriminate E.
  - (* ConvertClick: the button is disabled while loading *)
    unfold convertButton_onClick, bind, get_page; cbn.
    destruct (convertButton_disabled (page s)) eqn:E; [ auto | ].
    destruct (processVideo_frame eng s)
      as (_ & Hr & Hl & _ & _ & _ & tr & Htr & Hc).
    unfold load_invariant. rewrite Hl. intros [H0 | (H1 & Hst & _)]; auto.
    unfold convertButton_disabled, isReady in E. rewrite Hst in E.
    destruct (selectedFile (page s)); discriminate E.
  - (* EngineLog *)
    destruct s as [p w]. destruct p; auto.
  - (* IntensityChange *)
    destruct s as [p w]. destruct p; auto.
  - (* ToneMappingChange *)
    destruct s as [p w]. destruct p; auto.
  - (* Unmount *)
    destruct s as [p w]. destruct p as [ref st logs sel out int tm err].
    destruct processed, out; run_async; auto.
Qed.

Lemma run_load_invariant (evs : list Event) (s : Sys) :
  Forall fresh_event evs -> load_invariant s -> load_invariant (run evs s).
Proof.
  intros Hall. revert s.
  induction Hall as [|ev evs Hev _ IH]; intros s H; [exact H | ].
  change (run (ev :: evs) s) with (run evs (step s ev)).
  apply IH. now apply step_load_invariant.
Qed.

(* ===================================================================== *)
(** * Parameters and the engine command *)
(* ===================================================================== *)

(** C1, as stated, fails: with the intensity set to 2 (above 1.7) the job
    is not refused; the engine is run with the command built from 2 and the
    page ends completed with no error message. *)
Lemma intensity_2_is_compiled_and_run :
  let s := step prepared (IntensityChange (ofZ 2)) in
  let s' := step s (ConvertClick engine_ok) in
  Number.ltb (lit 17 10) (intensity (page s)) = true
  /\ In (Exec (command (ofZ 2) hable)) (effects (world s'))
  /\ stage (page s') = completed
  /\ errorMessage (page s') = None.
Proof. vm_compute. intuition. Qed.

(** C1, amended: [processVideo] does not validate its parameters. For every
    intensity and every tone-mapping curve, once an engine is held and a
    file is selected, the job ends completed or in error according to the
    engine's answers alone, and when staging succeeds the engine is run
    with the command built from the values as they are. *)
Theorem processVideo_never_validates (eng : Engine) (s : Sys) (file : File) :
  ffmpegRef (page s) = true -> selectedFile (page s) = Some file ->
  let s' := snd (processVideo eng s) in
  stage (page s') = (if job_succeeds eng then completed else error)
  /\ (import_util_ok eng && fetchFile_ok eng && writeFile_ok eng = true ->
      In (Exec (command (intensity (page s)) (toneMapping (page s))))
         (effects (world s'))).
Proof.
  intros Href Hsel. split.
  - now apply (processVideo_outcome eng s file).
  - now apply (processVideo_exec eng s file).
Qed.

Lemma processVideo_never_validates_witness :
  let s := step prepared (IntensityChange (ofZ 2)) in
  let s' := snd (processVideo engine_ok s) in
  stage (page s') = completed
  /\ In (Exec (command (ofZ 2) hable)) (effects (world s')).
Proof.
  destruct (processVideo_never_validates engine_ok
              (step prepared (IntensityChange (ofZ 2))) clip
              eq_refl eq_refl) as [H1 H2].
  split; [exact H1 | exact (H2 eq_refl)].
Defined.

(** C4: at intensity 1.0 with the hable curve the filter graph has the nine
    stages in order, with gamma 0.90, saturation 1.00, midtone strength
    0.20, highlight strength 0.30 and desaturation 1.25; the argument list
    is -i, the input name, -vf, the joined graph, the fixed codec
    arguments and the output name; and a job whose staging succeeds hands
    exactly this list to the engine. *)
Theorem engine_command_at_intensity_1_hable :
  filterComplex (ofZ 1) hable =
    [ "zscale=transfer=bt709:matrix=bt709:primaries=bt709";
      "split=3[luma][mid][hi]";
      "[luma]eq=gamma=0.90:saturation=1.00[luma_adj]";
      "[mid]curves=preset=medium_contrast:intensity=0.20[mid_adj]";
      "[hi]curves=preset=strong_contrast:intensity=0.30[hi_adj]";
      "[luma_adj][mid_adj]blend=all_mode='screen'[mix1]";
      "[mix1][hi_adj]blend=all_mode='lighten'[pre_hdr]";
      "[pre_hdr]tonemap=hable:desat=1.25:peak=1000[z]";
      "[z]zscale=matrix=bt2020ncl:primaries=bt2020:transfer=smpte2084,format=yuv420p10le" ]
  /\ command (ofZ 1) hable = command_1_hable
  /\ forall (eng : Engine) (s : Sys) (file : File),
       ffmpegRef (page s) = true -> selectedFile (page s) = Some file ->
       intensity (page s) = ofZ 1 -> toneMapping (page s) = hable ->
       import_util_ok eng && fetchFile_ok eng && writeFile_ok eng = true ->
       In (Exec command_1_hable) (effects (world (snd (processVideo eng s)))).
Proof.
  split; [vm_compute; reflexivity | ].
  assert (Hc : command (ofZ 1) hable = command_1_hable)
    by (vm_compute; reflexivity).
  split; [exact Hc | ].
  intros eng s file Href Hsel Hint Htm Hok.
  rewrite <- Hc, <- Hint, <- Htm.
  now apply (processVideo_exec eng s file).
Qed.

Lemma engine_command_at_intensity_1_hable_witness :
  In (Exec command_1_hable)
     (effects (world (snd (processVideo engine_ok
        (step prepared (IntensityChange (ofZ 1))))))).
Proof.
  exact (proj2 (proj2 engine_command_at_intensity_1_hable) engine_ok
           (step prepared (IntensityChange (ofZ 1))) clip
           eq_refl eq_refl eq_refl eq_refl eq_refl).
Defined.

(** C5: at intensity 1.25 with the mobius curve the derived parameters,
    printed with two decimals, are gamma 1.10, saturation 1.25, midtone
    strength 0.25, highlight strength 0.38 (0.3 * 1.25 is the double 0.375,
    a tie that goes up) and desaturation 1.00 (1.25 / 1.25 is 1). *)
Theorem derived_parameters_at_1_25_mobius :
  let intensity := lit 125 100 in
  contrast intensity = "1.10"
  /\ saturation intensity = "1.25"
  /\ midtones intensity = "0.25"
  /\ highlight intensity = "0.38"
  /\ desat intensity = "1.00"
  /\ mul (lit 3 10) intensity = lit 375 1000
  /\ div (lit 125 100) intensity = ofZ 1
  /\ filterComplex intensity mobius =
     [ "zscale=transfer=bt709:matrix=bt709:primaries=bt709";
       "split=3[luma][mid][hi]";
       "[luma]eq=gamma=1.10:saturation=1.25[luma_adj]";
       "[mid]curves=preset=medium_contrast:intensity=0.25[mid_adj]";
       "[hi]curves=preset=strong_contrast:intensity=0.38[hi_adj]";
       "[luma_adj][mid_adj]blend=all_mode='screen'[mix1]";
       "[mix1][hi_adj]blend=all_mode='lighten'[pre_hdr]";
       "[pre_hdr]tonemap=mobius:desat=1.00:peak=1000[z]";
       "[z]zscale=matrix=bt2020ncl:primaries=bt2020:transfer=smpte2084,format=yuv420p10le" ].
Proof. vm_compute. repeat split. Qed.

(* ===================================================================== *)
(** * One job at a time, and its scratch files *)
(* ===================================================================== *)

(** C3: a click on the convert button while the stage is processing is
    rejected: the button is disabled, the handler does not run, and the
    page, the logs, the engine's files and the trace are all unchanged. *)
Theorem click_while_processing_is_rejected (eng : Engine) (s : Sys) :
  stage (page s) = processing ->
  convertButton_onClick eng s = (Normal tt, s)
  /\ step s (ConvertClick eng) = s.
Proof.
  destruct s as [p w]. destruct p as [ref st logs sel out int tm err].
  cbn. intros ->.
  unfold step, handle, convertButton_onClick, convertButton_disabled,
    isReady, isProcessing, bind, get_page, ret. cbn.
  rewrite orb_true_r. split; reflexivity.
Qed.

Lemma click_while_processing_is_rejected_witness :
  stage (page in_flight) = processing
  /\ step in_flight (ConvertClick engine_ok) = in_flight.
Proof.
  split; [reflexivity | ].
  exact (proj2 (click_while_processing_is_rejected engine_ok in_flight
                  eq_refl)).
Defined.

(** C6: every job (a call that passes the guard), whatever the engine
    answers at any step, ends with the cleanup: the last two effects of the
    job are deleteFile on the input name and then deleteFile on the output
    name, after everything the try block and the catch block did (the
    console.error of a failed job included), and no deletion happens before
    them; so each name is deleted exactly once. The job completes normally
    and ends in the stage that the try block alone decides; how the two
    deletions answer changes neither the completion nor the page. *)
Theorem cleanup_deletes_both_names_once
  (eng : Engine) (s : Sys) (file : File) :
  ffmpegRef (page s) = true -> selectedFile (page s) = Some file ->
  let r := processVideo eng s in
  fst r = Normal tt
  /\ (exists body,
        effects (world (snd r))
        = effects (world s) ++ body
          ++ [DeleteFile inputName; DeleteFile outputName]
        /\ count is_delete body = 0%nat
        /\ count is_consoleError body = Nat.b2n (negb (job_succeeds eng)))
  /\ (exists tr,
        effects (world (snd r)) = effects (world s) ++ tr
        /\ count (is_deleteFile inputName) tr = 1%nat
        /\ count (is_deleteFile outputName) tr = 1%nat)
  /\ stage (page (snd r)) = (if job_succeeds eng then completed else error)
  /\ forall d : string -> bool,
       fst (processVideo (with_deleteFile d eng) s) = Normal tt
       /\ page (snd (processVideo (with_deleteFile d eng) s)) = page (snd r).
Proof.
  intros Href Hsel r. subst r.
  split; [apply processVideo_frame | ].
  split.
  { destruct s as [p w]. destruct p as [ref st logs sel out int tm err].
    cbn in Href, Hsel. subst ref sel. unfold job_succeeds.
    split_engine eng.
    all: repeat rewrite <- app_assoc.
    all: match goal with
         | |- exists body, ?pre ++ ?tr = _ /\ _ =>
             exists (removelast (removelast tr))
         end.
    all: repeat split. }
  split.
  { destruct s as [p w]. destruct p as [ref st logs sel out int tm err].
    cbn in Href, Hsel. subst ref sel.
    split_engine eng.
    all: trace_tail; split; reflexivity. }
  split; [now apply (processVideo_outcome eng s file) | ].
  intros d. split; [apply processVideo_frame | ].
  destruct s as [p w]. destruct p as [ref st logs sel out int tm err].
  cbn in Href, Hsel. subst ref sel. unfold with_deleteFile.
  split_engine eng.
  all: destruct (d inputName); run_async.
  all: destruct (d outputName); run_async.
  all: reflexivity.
Qed.

Lemma cleanup_deletes_both_names_once_witness :
  effects (world (snd (processVideo engine_exec_fails prepared)))
  = effects (world prepared)
    ++ [ WriteFile inputName (file_bytes clip);
         Exec (command (lit 125 100) hable);
         ConsoleError ]
    ++ [DeleteFile inputName; DeleteFile outputName]
  /\ stage (page (snd (processVideo engine_exec_fails prepared))) = error.
Proof.
  destruct (cleanup_deletes_both_names_once engine_exec_fails prepared clip
              eq_refl eq_refl) as (_ & (body & H1 & _) & _ & H3 & _).
  split; [vm_compute; reflexivity | exact H3].
Defined.

(* ===================================================================== *)
(** * The output URL *)
(* ===================================================================== *)

(** C2, on the code: two conversions in a row that both succeed. The
    second stores a new URL without revoking the first, which stays live:
    two output URLs are live and the trace holds no revocation. *)
Theorem second_conversion_leaves_first_url_live :
  let s1 := step prepared (ConvertClick engine_ok) in
  let s2 := step s1 (ConvertClick engine_ok) in
  outputUrl (page s1) = Some 0%nat
  /\ stage (page s2) = completed
  /\ outputUrl (page s2) = Some 1%nat
  /\ liveUrls (world s2) = [0%nat; 1%nat]
  /\ count is_revoke (effects (world s2)) = 0%nat.
Proof. vm_compute. repeat split. Qed.

(** C10: a job that fails leaves the output URL as it was: the state cell,
    the live URLs and the URL counter are unchanged and the job creates and
    revokes nothing; it sets the stage to error and the error message, and
    keeps the engine, the selected file and the two controls. *)
Theorem failed_job_keeps_output_url (eng : Engine) (s : Sys) (file : File) :
  ffmpegRef (page s) = true -> selectedFile (page s) = Some file ->
  job_succeeds eng = false ->
  let s' := snd (processVideo eng s) in
  outputUrl (page s') = outputUrl (page s)
  /\ liveUrls (world s') = liveUrls (world s)
  /\ nextUrl (world s') = nextUrl (world s)
  /\ (exists tr, effects (world s') = effects (world s) ++ tr
                 /\ count is_url_effect tr = 0%nat)
  /\ stage (page s') = error
  /\ errorMessage (page s') = Some conversion_failed
  /\ ffmpegRef (page s') = true
  /\ selectedFile (page s') = Some file
  /\ intensity (page s') = intensity (page s)
  /\ toneMapping (page s') = toneMapping (page s).
Proof.
  destruct s as [p w]. destruct p as [ref st logs sel out int tm err].
  cbn. intros -> -> Hfail. unfold job_succeeds in Hfail.
  split_engine eng; try discriminate Hfail.
  all: repeat split; trace_tail; reflexivity.
Qed.

Lemma failed_job_keeps_output_url_witness :
  let s := step prepared (ConvertClick engine_ok) in
  let s' := snd (processVideo engine_exec_fails s) in
  outputUrl (page s') = Some 0%nat /\ liveUrls (world s') = [0%nat].
Proof.
  destruct (failed_job_keeps_output_url engine_exec_fails
              (step prepared (ConvertClick engine_ok)) clip
              eq_refl eq_refl eq_refl) as (H1 & H2 & _).
  split; [exact H1 | exact H2].
Defined.

(* ===================================================================== *)
(** * The log buffer *)
(* ===================================================================== *)

Lemma fold_appendLog_bound (lines buf : list string) :
  (List.length buf <= 25)%nat ->
  (List.length (fold_left appendLog lines buf) <= 25)%nat.
Proof.
  intros H. rewrite fold_appendLog by exact H.
  rewrite length_slice_last. lia.
Qed.

Lemma processVideo_log_bound (eng : Engine) (s : Sys) :
  (List.length (logMessages (page s)) <= 25)%nat ->
  (List.length (logMessages (page (snd (processVideo eng s)))) <= 25)%nat.
Proof.
  destruct s as [p w]. destruct p as [ref st logs sel out int tm err].
  intros H. destruct ref, sel as [file|]; try exact H.
  split_engine eng.
  all: cbn -[fold_left appendLog]; repeat apply fold_appendLog_bound;
    cbn; lia.
Qed.

Lemma step_log_bound (s : Sys) (ev : Event) :
  (List.length (logMessages (page s)) <= 25)%nat ->
  (List.length (logMessages (page (step s ev))) <= 25)%nat.
Proof.
  intros H.
  destruct ev as [ | ld | file | eng | message | v | v | processed | captured ];
    unfold step, handle.
  - (* EffectRun *)
    destruct s as [p w]. destruct p as [ref st logs sel out int tm err].
    destruct ref, st; exact H.
  - (* LoadSettles: the lines logged while loading go through the handler *)
    destruct (Nat.eqb (loading (world s)) 0); [exact H | ].
    destruct s as [p w]. destruct p as [ref st logs sel out int tm err].
    destruct ld as [i b l em]. run_async.
    destruct i; run_async;
      [destruct b; run_async; [destruct l; run_async | ] | ].
    all: cbn -[fold_left appendLog]; repeat apply fold_appendLog_bound;
      exact H.
  - (* FileInputChange *)
    unfold fileInput_onChange, bind, get_page; cbn.
    destruct (fileInput_disabled (page s)); [exact H | ].
    destruct s as [p w]. destruct p as [ref st logs sel out int tm err].
    destruct file as [f|]; [ | exact H].
    destruct out, ref; exact H.
  - (* ConvertClick *)
    unfold convertButton_onClick, bind, get_page; cbn.
    destruct (convertButton_disabled (page s)); [exact H | ].
    now apply processVideo_log_bound.
  - (* EngineLog *)
    destruct s as [p w]. destruct p as [ref st logs sel out int tm err].
    apply (fold_appendLog_bound [message]). exact H.
  - (* IntensityChange *)
    destruct s as [p w]. destruct p; exact H.
  - (* ToneMappingChange *)
    destruct s as [p w]. destruct p; exact H.
  - (* Unmount *)
    destruct s as [p w]. destruct p as [ref st logs sel out int tm err].
    destruct processed, out; exact H.
  - (* EffectRerun *)
    destruct s as [p w]. destruct p as [ref st logs sel out int tm err].
    destruct ref, captured; exact H.
Qed.

Lemma reachable_log_bound (s : Sys) :
  reachable s -> (List.length (logMessages (page s)) <= 25)%nat.
Proof.
  intros [evs ->]. induction evs as [|ev evs IH] using rev_ind.
  - cbn. lia.
  - unfold run. rewrite fold_left_app. cbn [fold_left].
    now apply step_log_bound.
Qed.

(** C7: whatever the page has been through, lines appended one by one leave
    in the buffer the last 25 of what it held followed by the new lines
    (all of them when fewer), in their order: the sequence with a prefix
    dropped. Thirty lines appended to an empty buffer leave the last 25. *)
Theorem log_buffer_keeps_last_25 (lines : list string) (s : Sys) :
  reachable s ->
  let old := logMessages (page s) in
  let buf := logMessages (page (run (map EngineLog lines) s)) in
  buf = fold_left appendLog lines old
  /\ buf = slice_last 25 (old ++ lines)
  /\ (List.length buf <= 25)%nat
  /\ (exists dropped, old ++ lines = dropped ++ buf)
  /\ (old = [] -> List.length lines = 30%nat -> buf = skipn 5 lines).
Proof.
  intros Hs old buf. subst old buf. rewrite run_logs.
  cbn [page logged logMessages].
  rewrite fold_appendLog by now apply reachable_log_bound.
  split; [reflexivity | ]. split; [reflexivity | ].
  split; [rewrite length_slice_last; lia | ].
  split.
  - exists (firstn (List.length (logMessages (page s) ++ lines) - 25)
                   (logMessages (page s) ++ lines)).
    unfold slice_last. symmetry. apply firstn_skipn.
  - intros -> H30. cbn [app]. unfold slice_last. now rewrite H30.
Qed.

Lemma log_buffer_keeps_last_25_witness :
  logMessages (page (run (map EngineLog thirty_lines) initial))
  = skipn 5 thirty_lines.
Proof.
  assert (H0 : reachable initial) by (exists []; reflexivity).
  exact (proj2 (proj2 (proj2 (proj2
           (log_buffer_keeps_last_25 thirty_lines initial H0))))
           eq_refl eq_refl).
Defined.

(** C8, as stated, fails: a line the engine emits after a job has completed
    (the stage is completed, not processing) is appended to the buffer. *)
Lemma late_log_line_is_appended :
  let s := step prepared (ConvertClick engine_ok) in
  let s' := step s (EngineLog "late") in
  stage (page s) = completed
  /\ logMessages (page s) = []
  /\ stage (page s') = completed
  /\ logMessages (page s') = ["late"].
Proof. vm_compute. repeat split. Qed.

(** C8, amended: the handler given to the engine when it is created is
    never detached and does not look at the stage, the engine or the file:
    every line delivered to it, in any state of the page, is appended to the
    buffer (keeping the last 25 lines); so are the lines the engine emits
    while it loads, whether the load then succeeds or fails. A job empties
    the buffer when it starts, so what a job leaves does not depend on the
    lines that were in the buffer before it. *)
Theorem log_handler_always_appends_and_job_start_resets :
  (forall (s : Sys) (message : string),
      step s (EngineLog message)
      = mkSys (logged [message] (page s)) (world s)
      /\ logMessages (page (step s (EngineLog message)))
         = slice_last 24 (logMessages (page s)) ++ [message])
  /\ (forall (s : Sys) (ld : Loader),
        loading (world s) <> 0%nat ->
        imports_ok ld = true -> toBlobURL_ok ld = true ->
        logMessages (page (step s (LoadSettles ld)))
        = fold_left appendLog (load_emits ld) (logMessages (page s)))
  /\ (forall s : Sys, logMessages (page (snd (processVideo_prologue s))) = [])
  /\ (forall (eng : Engine) (s : Sys) (file : File) (logs : list string),
        ffmpegRef (page s) = true -> selectedFile (page s) = Some file ->
        processVideo eng (with_logMessages logs s) = processVideo eng s).
Proof.
  split; [ | split; [ | split]].
  - intros [p w] message. destruct p; split; reflexivity.
  - intros [p w] ld Hl Hi Hb.
    destruct p as [ref st old sel out int tm err].
    unfold step, handle. cbn [world loading] in *.
    destruct (Nat.eqb (loading w) 0) eqn:E;
      [apply Nat.eqb_eq in E; contradiction | ].
    destruct ld as [i b l em]. cbn in Hi, Hb. subst i b.
    run_async. destruct l; run_async; reflexivity.
  - intros [p w]. destruct p; reflexivity.
  - intros eng [p w] file logs.
    destruct p as [ref st old sel out int tm err].
    cbn. intros -> ->. reflexivity.
Qed.

Lemma log_handler_always_appends_and_job_start_resets_witness :
  logMessages (page (step (step initial EffectRun)
                          (LoadSettles loader_fails))) = ["boot"]
  /\ processVideo engine_ok (with_logMessages ["stray"] prepared)
     = processVideo engine_ok prepared.
Proof.
  destruct log_handler_always_appends_and_job_start_resets
    as (_ & H2 & _ & H4).
  split.
  - exact (H2 (step initial EffectRun) loader_fails
              ltac:(discriminate) eq_refl eq_refl).
  - exact (H4 engine_ok prepared clip ["stray"] eq_refl eq_refl).
Defined.

(* ===================================================================== *)
(** * Loading the engine *)
(* ===================================================================== *)

(** C9, as stated, fails: the call of [loadFFmpeg] made by the render that
    follows the first call, while the first is suspended, does not await
    it; it returns at once, with no engine held and the stage still
    loading-ffmpeg. *)
Lemma second_load_call_returns_without_awaiting :
  let s1 := step initial EffectRun in
  loading (world s1) = 1%nat
  /\ loadFFmpeg_call (stage (page s1)) s1 = (Normal Returned, s1)
  /\ ffmpegRef (page s1) = false
  /\ stage (page s1) = loading_ffmpeg.
Proof. vm_compute. repeat split. Qed.

(** C9, amended: [loadFFmpeg] shares no promise. A call that passes the
    guard starts one initialization and is suspended. A call made with an
    engine held, or by a render whose stage is loading-ffmpeg, returns at
    once: it starts nothing, changes nothing and awaits nothing; so does
    the effect run of the render that follows a first call. Once an engine
    is held, no sequence of events drops it or starts an initialization.
    With one run of the effect per render, at most one call is suspended. *)
Theorem load_starts_once_and_engine_is_kept :
  (forall (s : Sys) (captured : Stage),
      ffmpegRef (page s) = false -> captured <> loading_ffmpeg ->
      let s1 := snd (loadFFmpeg_call captured s) in
      fst (loadFFmpeg_call captured s) = Normal Suspended
      /\ stage (page s1) = loading_ffmpeg
      /\ effects (world s1) = effects (world s) ++ [ImportFFmpeg]
      /\ loading (world s1) = S (loading (world s)))
  /\ (forall (s : Sys) (captured : Stage),
        ffmpegRef (page s) = true \/ captured = loading_ffmpeg ->
        loadFFmpeg_call captured s = (Normal Returned, s))
  /\ (forall s : Sys,
        ffmpegRef (page s) = false -> stage (page s) <> loading_ffmpeg ->
        let s1 := step s EffectRun in
        step s1 EffectRun = s1
        /\ count is_import (effects (world s1))
           = S (count is_import (effects (world s))))
  /\ (forall (s : Sys) (evs : list Event),
        ffmpegRef (page s) = true ->
        ffmpegRef (page (run evs s)) = true
        /\ count is_import (effects (world (run evs s)))
           = count is_import (effects (world s)))
  /\ (forall evs : list Event,
        Forall fresh_event evs ->
        (loading (world (run evs initial)) <= 1)%nat).
Proof.
  split; [ | split; [ | split; [ | split]]].
  - intros [p w] captured. destruct p as [ref st logs sel out int tm err].
    cbn. intros -> Hc.
    destruct captured; try (exfalso; apply Hc; reflexivity);
      cbn; repeat split.
  - intros s captured. apply loadFFmpeg_call_held.
  - intros [p w]. destruct p as [ref st logs sel out int tm err].
    cbn. intros -> Hst.
    destruct st; try (exfalso; apply Hst; reflexivity);
      cbn -[count]; rewrite count_app; cbn; split; try reflexivity; lia.
  - intros s evs Href. now apply run_engine_held.
  - intros evs Hall.
    assert (H : load_invariant (run evs initial)).
    { apply run_load_invariant; [exact Hall | left; reflexivity]. }
    destruct H as [H | (H & _)]; lia.
Qed.

Lemma load_starts_once_and_engine_is_kept_witness :
  fst (loadFFmpeg_call idle initial) = Normal Suspended
  /\ ffmpegRef
       (page (run [EffectRerun idle; ConvertClick engine_ok; Unmount true]
                  prepared))
     = true.
Proof.
  destruct load_starts_once_and_engine_is_kept as (H1 & _ & _ & H4 & _).
  split.
  - apply (H1 initial idle); [reflexivity | discriminate].
  - apply (H4 prepared
             [EffectRerun idle; ConvertClick engine_ok; Unmount true]).
    reflexivity.
Defined.

(* ===================================================================== *)
(** * More on a job: guard, order of the steps, log *)
(* ===================================================================== *)

(** X1: without an engine held or without a selected file, [processVideo]
    returns at its guard: nothing changes, also when the button is enabled
    (it is in the stages idle and error, where no engine may be held). *)
Theorem convert_without_engine_or_file_does_nothing
  (eng : Engine) (s : Sys) :
  ffmpegRef (page s) = false \/ selectedFile (page s) = None ->
  processVideo eng s = (Normal tt, s) /\ step s (ConvertClick eng) = s.
Proof.
  intros H. pose proof (processVideo_guard eng s H) as Hg.
  split; [exact Hg | ].
  unfold step, handle, convertButton_onClick, bind, get_page. cbn.
  destruct (convertButton_disabled (page s)); [reflexivity | ].
  now rewrite Hg.
Qed.

Lemma convert_without_engine_or_file_does_nothing_witness :
  let s := step initial (FileInputChange (Some clip)) in
  convertButton_disabled (page s) = false
  /\ step s (ConvertClick engine_ok) = s.
Proof.
  split; [reflexivity | ].
  exact (proj2 (convert_without_engine_or_file_does_nothing engine_ok
                  (step initial (FileInputChange (Some clip)))
                  (or_introl eq_refl))).
Defined.

(** X2: a job whose every step resolves does, in this order and nothing
    else: write the file's bytes under the input name, execute the command
    built from the intensity and curve of the moment of the click, read the
    output name, create an object URL for the bytes read, delete the input
    name, delete the output name. The new URL is a fresh one, it becomes the
    exposed output URL, the stage is completed and the error message is
    cleared. *)
Theorem successful_job_trace
  (eng : Engine) (s : Sys) (file : File) (data : list Byte.byte) :
  ffmpegRef (page s) = true -> selectedFile (page s) = Some file ->
  job_succeeds eng = true -> readFile_result eng = Some data ->
  let s' := snd (processVideo eng s) in
  let url := nextUrl (world s) in
  effects (world s') =
    effects (world s)
    ++ [ WriteFile inputName (file_bytes file);
         Exec (command (intensity (page s)) (toneMapping (page s)));
         ReadFile outputName;
         CreateObjectURL url data;
         DeleteFile inputName;
         DeleteFile outputName ]
  /\ outputUrl (page s') = Some url
  /\ liveUrls (world s') = liveUrls (world s) ++ [url]
  /\ nextUrl (world s') = S url
  /\ stage (page s') = completed
  /\ errorMessage (page s') = None.
Proof.
  destruct s as [p w]. destruct p as [ref st logs sel out int tm err].
  cbn. intros -> -> Hok Hdata. unfold job_succeeds in Hok.
  split_engine eng; try discriminate Hok; cbn in Hdata;
    injection Hdata as ->.
  all: repeat rewrite <- app_assoc; repeat split.
Qed.

Lemma successful_job_trace_witness :
  effects (world (snd (processVideo engine_ok prepared))) =
    effects (world prepared)
    ++ [ WriteFile inputName (file_bytes clip);
         Exec (command (lit 125 100) hable);
         ReadFile outputName;
         CreateObjectURL 0%nat [Byte.x00];
         DeleteFile inputName;
         DeleteFile outputName ].
Proof.
  exact (proj1 (successful_job_trace engine_ok prepared clip [Byte.x00]
                  eq_refl eq_refl eq_refl eq_refl)).
Defined.

(** X3: the steps of a job stop at the first one that rejects. The file is
    written only if the import and the fetch resolved, the command is
    executed only if the write resolved too, the output is read only if the
    execution resolved too, an object URL is created only if everything
    resolved; each happens at most once, and [console.error] is called once
    exactly when the job fails. *)
Theorem job_steps_stop_at_first_failure
  (eng : Engine) (s : Sys) (file : File) :
  ffmpegRef (page s) = true -> selectedFile (page s) = Some file ->
  exists tr,
    effects (world (snd (processVideo eng s))) = effects (world s) ++ tr
    /\ count is_writeFile tr
       = Nat.b2n (import_util_ok eng && fetchFile_ok eng)
    /\ count is_exec tr
       = Nat.b2n (import_util_ok eng && fetchFile_ok eng && writeFile_ok eng)
    /\ count is_readFile tr
       = Nat.b2n (import_util_ok eng && fetchFile_ok eng && writeFile_ok eng
                  && exec_ok eng)
    /\ count is_create tr = Nat.b2n (job_succeeds eng)
    /\ count is_consoleError tr = Nat.b2n (negb (job_succeeds eng)).
Proof.
  destruct s as [p w]. destruct p as [ref st logs sel out int tm err].
  cbn. intros -> ->. unfold job_succeeds.
  split_engine eng.
  all: trace_tail; repeat split.
Qed.

Lemma job_steps_stop_at_first_failure_witness :
  exists tr,
    effects (world (snd (processVideo engine_exec_fails prepared)))
    = effects (world prepared) ++ tr
    /\ count is_exec tr = 1%nat
    /\ count is_readFile tr = 0%nat
    /\ count is_consoleError tr = 1%nat.
Proof.
  destruct (job_steps_stop_at_first_failure engine_exec_fails prepared clip
              eq_refl eq_refl) as (tr & H1 & _ & H3 & H4 & _ & H6).
  exists tr. repeat split; assumption.
Defined.

(** X4: after a job whose every step resolves, the log buffer holds the
    last 25 of the lines the engine emitted during that job's five engine
    calls, in the order of the calls (write, execute, read, the two
    deletions), and nothing of what it held before. *)
Theorem successful_job_log_is_what_the_engine_said
  (eng : Engine) (s : Sys) (file : File) :
  ffmpegRef (page s) = true -> selectedFile (page s) = Some file ->
  job_succeeds eng = true ->
  logMessages (page (snd (processVideo eng s))) =
    slice_last 25
      (emits eng (WriteFile inputName (file_bytes file))
       ++ emits eng
            (Exec (command (intensity (page s)) (toneMapping (page s))))
       ++ emits eng (ReadFile outputName)
       ++ emits eng (DeleteFile inputName)
       ++ emits eng (DeleteFile outputName)).
Proof.
  destruct s as [p w]. destruct p as [ref st logs sel out int tm err].
  cbn. intros -> -> Hok. unfold job_succeeds in Hok.
  match goal with |- _ = slice_last 25 ?l =>
    change l with ([] ++ l); rewrite <- (fold_appendLog l []) by (cbn; lia)
  end.
  rewrite !fold_left_app.
  split_engine eng; try discriminate Hok; reflexivity.
Qed.

Lemma successful_job_log_is_what_the_engine_said_witness :
  logMessages
    (page (snd (processVideo engine_chatty
                  (step prepared (EngineLog "before")))))
  = ["frame=1"; "frame=2"; "rm"; "rm"].
Proof.
  exact (successful_job_log_is_what_the_engine_said engine_chatty
           (step prepared (EngineLog "before")) clip
           eq_refl eq_refl eq_refl).
Defined.

(* ===================================================================== *)
(** * More on object URLs *)
(* ===================================================================== *)

(** X5: choosing a file while the input is enabled stores the file, revokes
    the exposed output URL if there is one (which is then no longer live)
    and clears it, and sets the stage to ready when an engine is held and
    leaves it otherwise; the error message and the log stay as they are. *)
Theorem file_selection_revokes_the_output_url (s : Sys) (f : File) :
  fileInput_disabled (page s) = false ->
  let s' := step s (FileInputChange (Some f)) in
  selectedFile (page s') = Some f
  /\ outputUrl (page s') = None
  /\ stage (page s') = (if ffmpegRef (page s) then ready else stage (page s))
  /\ errorMessage (page s') = errorMessage (page s)
  /\ logMessages (page s') = logMessages (page s)
  /\ match outputUrl (page s) with
     | Some u =>
         effects (world s') = effects (world s) ++ [RevokeObjectURL u]
         /\ liveUrls (world s') = remove Nat.eq_dec u (liveUrls (world s))
         /\ ~ In u (liveUrls (world s'))
     | None => world s' = world s
     end.
Proof.
  destruct s as [p w]. destruct p as [ref st logs sel out int tm err].
  unfold step, handle, fileInput_onChange, bind, get_page. cbn.
  intros ->. destruct out as [u|], ref; run_async; repeat split;
    try apply remove_In; destruct w; reflexivity.
Qed.

Lemma file_selection_revokes_the_output_url_witness :
  let s := step prepared (ConvertClick engine_ok) in
  let s' := step s (FileInputChange (Some clip)) in
  outputUrl (page s) = Some 0%nat
  /\ outputUrl (page s') = None
  /\ stage (page s') = ready.
Proof.
  destruct (file_selection_revokes_the_output_url
              (step prepared (ConvertClick engine_ok)) clip eq_refl)
    as (_ & H2 & H3 & _).
  split; [reflexivity | ]. split; [exact H2 | exact H3].
Defined.

Lemma NoDup_remove_url (u : Url) (l : list Url) :
  NoDup l -> NoDup (remove Nat.eq_dec u l).
Proof.
  induction 1 as [|x l Hx Hnd IH]; cbn; [constructor | ].
  destruct (Nat.eq_dec u x); [exact IH | ].
  constructor; [ | exact IH].
  intros Hin. apply in_remove in Hin. tauto.
Qed.

Lemma Forall_remove_url (P : Url -> Prop) (u : Url) (l : list Url) :
  Forall P l -> Forall P (remove Nat.eq_dec u l).
Proof.
  intros H. apply Forall_forall. intros x Hx. apply in_remove in Hx.
  rewrite Forall_forall in H. now apply H.
Qed.

Lemma length_remove_url (u : Url) (l : list Url) :
  NoDup l -> In u l ->
  S (List.length (remove Nat.eq_dec u l)) = List.length l.
Proof.
  induction 1 as [|x l Hx Hnd IH]; cbn; [tauto | ].
  destruct (Nat.eq_dec u x) as [-> | Hne].
  - intros _. rewrite notin_remove by exact Hx. reflexivity.
  - intros [Heq | Hin]; [congruence | ]. cbn. now rewrite IH.
Qed.

Lemma revoke_outputUrl_url_invariant (s : Sys) :
  url_invariant s -> url_invariant (snd (revoke_outputUrl s)).
Proof.
  destruct s as [p w]. destruct p as [ref st logs sel out int tm err].
  unfold url_invariant. cbn -[count]. intros (Hnd & Hlt & Hin & Hlen).
  destruct out as [u|]; run_async.
  - repeat split.
    + now apply NoDup_remove_url.
    + now apply Forall_remove_url.
    + discriminate.
    + rewrite !count_app. cbn.
      pose proof (length_remove_url u (liveUrls w) Hnd (Hin u eq_refl)).
      unfold Url in *. lia.
  - repeat split; auto.
Qed.

Lemma processVideo_url_invariant (eng : Engine) (s : Sys) :
  url_invariant s -> url_invariant (snd (processVideo eng s)).
Proof.
  destruct s as [p w]. destruct p as [ref st logs sel out int tm err].
  intros H. destruct ref, sel as [file|]; try exact H.
  destruct H as (Hnd & Hlt & Hin & Hlen).
  cbn -[count] in Hnd, Hlt, Hin, Hlen.
  unfold url_invariant.
  split_engine eng.
  all: rewrite ?count_app; cbn.
  all: unfold Url in *.
  all: try (repeat split; solve [auto | lia]).
  all: repeat split.
  all: try (apply NoDup_app; repeat split; auto;
            [ repeat constructor; cbn; tauto
            | intros x Hx [<- | []]; rewrite Forall_forall in Hlt;
              specialize (Hlt _ Hx); lia ]).
  all: try (apply Forall_app; split;
            [ eapply Forall_impl; [ | exact Hlt]; cbn; intros; lia
            | repeat constructor]).
  all: try (intros u [= <-]; apply in_or_app; right; cbn; auto).
  all: try (rewrite length_app; cbn; lia).
Qed.

Lemma step_url_invariant (s : Sys) (ev : Event) :
  url_invariant s -> url_invariant (step s ev).
Proof.
  intros H.
  destruct ev as [ | ld | file | eng | message | v | v | processed | captured ];
    unfold step, handle.
  - (* EffectRun *)
    destruct s as [p w]. destruct p as [ref st logs sel out int tm err].
    destruct ref; [exact H | ].
    destruct st; try exact H; unfold url_invariant in *; cbn -[count] in *;
      rewrite !count_app; cbn; unfold Url in *;
      repeat split; try tauto; lia.
  - (* LoadSettles *)
    destruct (Nat.eqb (loading (world s)) 0); [exact H | ].
    destruct s as [p w]. destruct p as [ref st logs sel out int tm err].
    destruct ld as [i b l em]. run_async.
    destruct i; run_async;
      [destruct b; run_async; [destruct l; run_async | ] | ].
    all: unfold url_invariant in *; cbn -[count] in *;
      rewrite ?count_app; cbn; unfold Url in *;
      repeat split; try tauto; lia.
  - (* FileInputChange *)
    unfold fileInput_onChange, bind, get_page; cbn.
    destruct (fileInput_disabled (page s)); [exact H | ].
    destruct file as [f|]; [ | exact H].
    pose proof (revoke_outputUrl_url_invariant
                  (snd (setSelectedFile (Some f) s))) as Hr.
    destruct s as [p w]. destruct p as [ref st logs sel out int tm err].
    specialize (Hr H).
    destruct out, ref; run_async; exact Hr.
  - (* ConvertClick *)
    unfold convertButton_onClick, bind, get_page; cbn.
    destruct (convertButton_disabled (page s)); [exact H | ].
    now apply processVideo_url_invariant.
  - (* EngineLog *)
    destruct s as [p w]. destruct p; exact H.
  - (* IntensityChange *)
    destruct s as [p w]. destruct p; exact H.
  - (* ToneMappingChange *)
    destruct s as [p w]. destruct p; exact H.
  - (* Unmount *)
    destruct processed; [ | exact H].
    now apply revoke_outputUrl_url_invariant.
  - (* EffectRerun *)
    destruct s as [p w]. destruct p as [ref st logs sel out int tm err].
    destruct ref; [exact H | ].
    destruct captured; try exact H;
      unfold url_invariant in *; cbn -[count] in *;
      rewrite !count_app; cbn; unfold Url in *;
      repeat split; try tauto; lia.
Qed.

(** X7: whatever has happened to the page, the exposed output URL is a live
    one (the result video and the download link never point to a revoked
    URL), no URL is live twice, and the number of live output URLs is the
    number created minus the number revoked. *)
Theorem live_urls_are_created_minus_revoked (s : Sys) :
  reachable s ->
  NoDup (liveUrls (world s))
  /\ (forall u, outputUrl (page s) = Some u -> In u (liveUrls (world s)))
  /\ (List.length (liveUrls (world s))
      + count is_revoke (effects (world s))
      = count is_create (effects (world s)))%nat.
Proof.
  intros [evs ->].
  assert (H : url_invariant (run evs initial)).
  { induction evs as [|ev evs IH] using rev_ind.
    - unfold url_invariant. cbn. repeat split; try constructor; discriminate.
    - unfold run. rewrite fold_left_app. cbn [fold_left].
      now apply step_url_invariant. }
  destruct H as (H1 & _ & H3 & H4). auto.
Qed.

Lemma live_urls_are_created_minus_revoked_witness :
  let s := run [ConvertClick engine_ok; ConvertClick engine_ok;
                FileInputChange (Some clip)] prepared in
  (List.length (liveUrls (world s)) + count is_revoke (effects (world s))
   = count is_create (effects (world s)))%nat.
Proof.
  assert (Hr : reachable
                 (run [ConvertClick engine_ok; ConvertClick engine_ok;
                       FileInputChange (Some clip)] prepared)).
  { exists [EffectRun; LoadSettles loader_ok; FileInputChange (Some clip);
            ConvertClick engine_ok; ConvertClick engine_ok;
            FileInputChange (Some clip)].
    vm_compute. reflexivity. }
  exact (proj2 (proj2 (live_urls_are_created_minus_revoked _ Hr))).
Defined.

Lemma preview_render_invariant (f : option File) (pv : Preview) :
  preview_invariant pv -> preview_invariant (preview_render f pv).
Proof.
  destruct pv as [cur live next eff]. unfold preview_invariant. cbn.
  intros [-> Hlt].
  destruct cur as [u|], f as [file|]; cbn.
  - specialize (Hlt u eq_refl).
    destruct (Nat.eq_dec u u) as [_ | Hne]; [ | contradiction].
    destruct (Nat.eq_dec u next) as [-> | _]; [lia | ].
    split; [reflexivity | ]. intros v [= <-]. lia.
  - destruct (Nat.eq_dec u u) as [_ | Hne]; [ | contradiction].
    split; [reflexivity | discriminate].
  - split; [reflexivity | ]. intros v [= <-]. lia.
  - split; [reflexivity | discriminate].
Qed.

Lemma preview_run_invariant (files : list (option File)) (pv : Preview) :
  preview_invariant pv -> preview_invariant (preview_run files pv).
Proof.
  revert pv. induction files as [|f files IH]; intros pv H; [exact H | ].
  cbn. apply IH. now apply preview_render_invariant.
Qed.

(** X8: the source preview does not accumulate object URLs. After any
    sequence of changes of the selected file, the only live preview URL is
    the one the memo holds (none when no file is selected), and after
    unmounting none is live. *)
Theorem preview_keeps_one_url_live (files : list (option File)) :
  let pv := preview_run files preview_initial in
  previewLive pv
    = match inputPreviewUrl pv with Some u => [u] | None => [] end
  /\ previewLive (preview_unmount pv) = [].
Proof.
  assert (H : preview_invariant (preview_run files preview_initial)).
  { apply preview_run_invariant. split; [reflexivity | discriminate]. }
  destruct H as [H1 H2]. cbn zeta. split; [exact H1 | ].
  unfold preview_unmount, preview_cleanup.
  destruct (inputPreviewUrl (preview_run files preview_initial)) as [u|];
    cbn; rewrite H1; cbn; [ | reflexivity].
  destruct (Nat.eq_dec u u); [reflexivity | contradiction].
Qed.

(* ===================================================================== *)
(** * More on loading the engine *)
(* ===================================================================== *)

(** X9: when a suspended load fails at any of its steps, the promise of
    [loadFFmpeg] still resolves; the stage becomes error with the
    initialization message, [console.error] is called once and no engine is
    held. The stage having changed, the effect fires again, and this run of
    [loadFFmpeg] passes the guard and starts a new initialization: a failed
    load is started again without any action of the user. *)
Theorem failed_load_is_started_again (s : Sys) (ld : Loader) :
  loading (world s) <> 0%nat -> ffmpegRef (page s) = false ->
  loader_succeeds ld = false ->
  let s1 := step s (LoadSettles ld) in
  let s2 := step s1 EffectRun in
  fst (loadFFmpeg_resume ld s) = Normal tt
  /\ stage (page s1) = error
  /\ errorMessage (page s1) = Some init_failed
  /\ ffmpegRef (page s1) = false
  /\ count is_consoleError (effects (world s1))
     = S (count is_consoleError (effects (world s)))
  /\ stage (page s2) = loading_ffmpeg
  /\ effects (world s2) = effects (world s1) ++ [ImportFFmpeg]
  /\ loading (world s2) = loading (world s).
Proof.
  destruct s as [p w]. destruct p as [ref st logs sel out int tm err].
  unfold step, handle. cbn [world page loading ffmpegRef].
  intros Hl -> Hfail.
  destruct (Nat.eqb (loading w) 0) eqn:E;
    [apply Nat.eqb_eq in E; contradiction | ].
  destruct ld as [i b l em]. unfold loader_succeeds in Hfail. cbn in Hfail.
  run_async.
  destruct i; run_async;
    [destruct b; run_async; [destruct l; run_async | ] | ];
    try discriminate Hfail.
  all: rewrite ?count_app; cbn; repeat split; lia.
Qed.

Lemma failed_load_is_started_again_witness :
  let s := step initial EffectRun in
  let s2 := step (step s (LoadSettles loader_fails)) EffectRun in
  stage (page s2) = loading_ffmpeg /\ loading (world s2) = 1%nat.
Proof.
  destruct (failed_load_is_started_again (step initial EffectRun)
              loader_fails ltac:(discriminate) eq_refl eq_refl)
    as (_ & _ & _ & _ & _ & H6 & _ & H8).
  split; [exact H6 | exact H8].
Defined.

(** X10: when a suspended load succeeds, an engine is held, the stage is
    ready and the lines logged while loading are in the buffer; the error
    message is not touched, and choosing a file does not touch it either:
    the message of an earlier failed load stays on the page although the
    stage is ready, until a job starts. *)
Theorem successful_load_keeps_the_error_message (s : Sys) (ld : Loader) :
  loading (world s) <> 0%nat -> loader_succeeds ld = true ->
  let s' := step s (LoadSettles ld) in
  ffmpegRef (page s') = true
  /\ stage (page s') = ready
  /\ errorMessage (page s') = errorMessage (page s)
  /\ logMessages (page s')
     = fold_left appendLog (load_emits ld) (logMessages (page s))
  /\ effects (world s') = effects (world s) ++ [LoadFFmpeg]
  /\ forall f : File,
       errorMessage (page (step s' (FileInputChange (Some f))))
       = errorMessage (page s).
Proof.
  destruct s as [p w]. destruct p as [ref st logs sel out int tm err].
  unfold step, handle. cbn [world page loading ffmpegRef].
  intros Hl Hok.
  destruct (Nat.eqb (loading w) 0) eqn:E;
    [apply Nat.eqb_eq in E; contradiction | ].
  destruct ld as [i b l em]. unfold loader_succeeds in Hok. cbn in Hok.
  apply andb_prop in Hok. destruct Hok as [Hok ->].
  apply andb_prop in Hok. destruct Hok as [-> ->].
  run_async. repeat split.
  intros f. destruct out; reflexivity.
Qed.

Lemma successful_load_keeps_the_error_message_witness :
  let s := run [EffectRun; LoadSettles loader_fails; EffectRun] initial in
  let s' := step s (LoadSettles loader_ok) in
  stage (page s') = ready /\ errorMessage (page s') = Some init_failed.
Proof.
  destruct (successful_load_keeps_the_error_message
              (run [EffectRun; LoadSettles loader_fails; EffectRun] initial)
              loader_ok ltac:(discriminate) eq_refl)
    as (_ & H2 & H3 & _).
  split; [exact H2 | exact H3].
Defined.

Lemma step_stage_invariant (s : Sys) (ev : Event) :
  stage_invariant s -> stage_invariant (step s ev).
Proof.
  intros H.
  destruct ev as [ | ld | file | eng | message | v | v | processed | captured ];
    unfold step, handle.
  - (* EffectRun *)
    destruct s as [p w]. destruct p as [ref st logs sel out int tm err].
    destruct ref; [exact H | ].
    destruct st; try exact H; unfold stage_invariant in *; cbn in *;
      intuition congruence.
  - (* LoadSettles: sets ready with the engine, or error *)
    destruct (Nat.eqb (loading (world s)) 0); [exact H | ].
    destruct s as [p w]. destruct p as [ref st logs sel out int tm err].
    destruct ld as [i b l em]. run_async.
    destruct i; run_async;
      [destruct b; run_async; [destruct l; run_async | ] | ].
    all: unfold stage_invariant in *; cbn in *; intuition congruence.
  - (* FileInputChange *)
    unfold fileInput_onChange, bind, get_page; cbn.
    destruct (fileInput_disabled (page s)) eqn:E; [exact H | ].
    destruct file as [f|]; [ | exact H].
    destruct s as [p w]. destruct p as [ref st logs sel out int tm err].
    unfold fileInput_disabled, isReady in E. cbn in E.
    destruct out, ref; run_async;
      unfold stage_invariant in *; cbn in *;
      destruct st; try discriminate E; intuition congruence.
  - (* ConvertClick *)
    unfold convertButton_onClick, bind, get_page; cbn.
    destruct (convertButton_disabled (page s)); [exact H | ].
    destruct s as [p w]. destruct p as [ref st logs sel out int tm err].
    destruct ref, sel as [file|]; try exact H.
    split_engine eng.
    all: unfold stage_invariant in *; cbn in *; intuition congruence.
  - (* EngineLog *)
    destruct s as [p w]. destruct p; exact H.
  - (* IntensityChange *)
    destruct s as [p w]. destruct p; exact H.
  - (* ToneMappingChange *)
    destruct s as [p w]. destruct p; exact H.
  - (* Unmount *)
    destruct s as [p w]. destruct p as [ref st logs sel out int tm err].
    destruct processed, out; run_async; unfold stage_invariant in *;
      cbn in *; intuition congruence.
  - (* EffectRerun *)
    destruct s as [p w]. destruct p as [ref st logs sel out int tm err].
    destruct ref; [exact H | ].
    destruct captured; try exact H; unfold stage_invariant in *; cbn in *;
      intuition congruence.
Qed.

(** X11: whatever has happened to the page, the stages ready and completed
    are shown only with an engine held, the stages idle and loading-ffmpeg
    only without one, and an output URL is exposed only with an engine held
    and a file selected. *)
Theorem stage_tells_whether_engine_is_held (s : Sys) :
  reachable s ->
  (stage (page s) = ready \/ stage (page s) = completed ->
     ffmpegRef (page s) = true)
  /\ (stage (page s) = idle \/ stage (page s) = loading_ffmpeg ->
     ffmpegRef (page s) = false)
  /\ (outputUrl (page s) <> None ->
     ffmpegRef (page s) = true /\ selectedFile (page s) <> None).
Proof.
  intros [evs ->].
  assert (H : stage_invariant (run evs initial)).
  { induction evs as [|ev evs IH] using rev_ind.
    - unfold stage_invariant. cbn. intuition congruence.
    - unfold run. rewrite fold_left_app. cbn [fold_left].
      now apply step_stage_invariant. }
  destruct H as (H1 & H2 & H3).
  destruct (ffmpegRef (page (run evs initial))) eqn:Href.
  - split; [auto | ]. split; [ | exact H3].
    intros Hst. destruct (H1 eq_refl) as [E | [E | E]];
      destruct Hst as [E' | E']; congruence.
  - split; [ | split; [auto | exact H3]].
    intros Hst. destruct (H2 eq_refl) as [E | [E | E]];
      destruct Hst as [E' | E']; congruence.
Qed.

Lemma stage_tells_whether_engine_is_held_witness :
  stage (page prepared) = ready /\ ffmpegRef (page prepared) = true.
Proof.
  assert (Hr : reachable prepared).
  { exists [EffectRun; LoadSettles loader_ok; FileInputChange (Some clip)].
    reflexivity. }
  split; [reflexivity | ].
  exact (proj1 (stage_tells_whether_engine_is_held prepared Hr)
           (or_introl eq_refl)).
Defined.

(* ===================================================================== *)
(** * The parameters over the whole slider *)
(* ===================================================================== *)

(** X12: at each of the fifteen positions of the intensity slider, the
    printed saturation, gamma, midtone strength and desaturation are the
    exact decimal values rounded to two decimals. The printed highlight
    strength is too, except at 1.15, 1.45, 1.55 and 1.65, where 0.3 times
    the intensity is a tie in exact arithmetic but the double product falls
    below it, and the printed value is the lower one (0.34 for 0.345). *)
Theorem slider_parameters_against_exact_rounding :
  Forall slider_row (seq 0 15)
  /\ map (fun k => highlight (sliderValue k)) [3; 9; 11; 13]%nat
     = ["0.34"; "0.43"; "0.46"; "0.49"].
Proof.
  split.
  - repeat constructor; vm_compute; reflexivity.
  - vm_compute. reflexivity.
Qed.

(* ===================================================================== *)
(** * Repeated conversions, and the controls *)
(* ===================================================================== *)

Lemma convertButton_click_success (eng : Engine) (s : Sys) :
  ffmpegRef (page s) = true -> convertButton_disabled (page s) = false ->
  job_succeeds eng = true ->
  let s' := step s (ConvertClick eng) in
  ffmpegRef (page s') = true
  /\ convertButton_disabled (page s') = false
  /\ liveUrls (world s') = liveUrls (world s) ++ [nextUrl (world s)]
  /\ nextUrl (world s') = S (nextUrl (world s))
  /\ count is_revoke (effects (world s'))
     = count is_revoke (effects (world s)).
Proof.
  destruct s as [p w]. destruct p as [ref st logs sel out int tm err].
  unfold step, handle, convertButton_onClick, bind, get_page.
  cbn [page world ffmpegRef fst snd]. intros -> Hen Hok.
  rewrite Hen. unfold convertButton_disabled in Hen. cbn in Hen.
  destruct sel as [file|]; [ | discriminate Hen].
  unfold job_succeeds in Hok.
  split_engine eng; try discriminate Hok.
  all: rewrite ?count_app; cbn; repeat split; lia.
Qed.

(** X13: conversions repeated without choosing a file again, each one
    succeeding, add one live output URL each and revoke none: after n of
    them the n new URLs are all live beside those that were. *)
Theorem repeated_conversions_accumulate_live_urls
  (engs : list Engine) (s : Sys) :
  ffmpegRef (page s) = true -> convertButton_disabled (page s) = false ->
  Forall (fun eng => job_succeeds eng = true) engs ->
  let s' := run (map ConvertClick engs) s in
  liveUrls (world s')
    = liveUrls (world s) ++ seq (nextUrl (world s)) (List.length engs)
  /\ count is_revoke (effects (world s'))
     = count is_revoke (effects (world s)).
Proof.
  intros Href Hen Hall. revert s Href Hen.
  induction Hall as [|eng engs Hok _ IH]; intros s Href Hen.
  - cbn. rewrite app_nil_r. split; reflexivity.
  - destruct (convertButton_click_success eng s Href Hen Hok)
      as (Href' & Hen' & Hlive & Hnext & Hrev).
    cbn [map List.length seq]. cbn zeta.
    change (run (ConvertClick eng :: map ConvertClick engs) s)
      with (run (map ConvertClick engs) (step s (ConvertClick eng))).
    destruct (IH _ Href' Hen') as [IH1 IH2]. cbn zeta in IH1, IH2.
    rewrite IH1, IH2, Hlive, Hnext, Hrev, <- app_assoc.
    split; reflexivity.
Qed.

Lemma repeated_conversions_accumulate_live_urls_witness :
  liveUrls (world (run (map ConvertClick [engine_ok; engine_ok; engine_ok])
                       prepared))
  = [0; 1; 2]%nat.
Proof.
  apply (repeated_conversions_accumulate_live_urls
           [engine_ok; engine_ok; engine_ok] prepared);
    [reflexivity | reflexivity | repeat constructor].
Defined.

(** X14: while the stage is loading-ffmpeg or processing, the file input
    and the convert button are both disabled: choosing a file or clicking
    changes nothing. *)
Theorem controls_are_dead_while_loading_or_processing
  (s : Sys) (file : option File) (eng : Engine) :
  stage (page s) = loading_ffmpeg \/ stage (page s) = processing ->
  fileInput_disabled (page s) = true
  /\ convertButton_disabled (page s) = true
  /\ step s (FileInputChange file) = s
  /\ step s (ConvertClick eng) = s.
Proof.
  destruct s as [p w]. destruct p as [ref st logs sel out int tm err].
  unfold step, handle, fileInput_onChange, convertButton_onClick,
    convertButton_disabled, fileInput_disabled, isReady, isProcessing,
    bind, get_page, ret.
  cbn. intros [-> | ->]; cbn; rewrite ?orb_true_r; repeat split.
Qed.

Lemma controls_are_dead_while_loading_or_processing_witness :
  let s := step initial EffectRun in
  stage (page s) = loading_ffmpeg
  /\ step s (FileInputChange (Some clip)) = s.
Proof.
  split; [reflexivity | ].
  exact (proj1 (proj2 (proj2
           (controls_are_dead_while_loading_or_processing
              (step initial EffectRun) (Some clip) engine_ok
              (or_introl eq_refl))))).
Defined.

(* ===================================================================== *)
(** * The effect of one render run twice *)
(* ===================================================================== *)

(** X15: the guard of [loadFFmpeg] reads the stage its render captured,
    which [setStage] does not change. When the effect of one render runs
    twice with no engine held (and that render's stage is not
    loading-ffmpeg), both calls pass the guard: two initializations are
    started and two calls are suspended; when both loads succeed,
    [ffmpeg.load] has run twice. *)
Theorem effect_run_twice_starts_two_loads
  (s : Sys) (captured : Stage) (ld1 ld2 : Loader) :
  ffmpegRef (page s) = false -> captured <> loading_ffmpeg ->
  loader_succeeds ld1 = true -> loader_succeeds ld2 = true ->
  let s2 := run [EffectRerun captured; EffectRerun captured] s in
  let s4 := run [LoadSettles ld1; LoadSettles ld2] s2 in
  effects (world s2) = effects (world s) ++ [ImportFFmpeg; ImportFFmpeg]
  /\ loading (world s2) = S (S (loading (world s)))
  /\ stage (page s2) = loading_ffmpeg
  /\ effects (world s4) = effects (world s2) ++ [LoadFFmpeg; LoadFFmpeg]
  /\ ffmpegRef (page s4) = true.
Proof.
  destruct s as [p w]. destruct p as [ref st logs sel out int tm err].
  cbn [page ffmpegRef]. intros -> Hc H1 H2.
  destruct ld1 as [i1 b1 l1 em1]. destruct ld2 as [i2 b2 l2 em2].
  unfold loader_succeeds in H1, H2. cbn in H1, H2.
  apply andb_prop in H1. destruct H1 as [H1 ->].
  apply andb_prop in H1. destruct H1 as [-> ->].
  apply andb_prop in H2. destruct H2 as [H2 ->].
  apply andb_prop in H2. destruct H2 as [-> ->].
  unfold run, fold_left, step, handle.
  destruct captured; try (exfalso; apply Hc; reflexivity).
  all: run_async; repeat rewrite <- app_assoc; repeat split.
Qed.

Lemma effect_run_twice_starts_two_loads_witness :
  let s2 := run [EffectRerun idle; EffectRerun idle] initial in
  effects (world s2) = [ImportFFmpeg; ImportFFmpeg]
  /\ loading (world s2) = 2%nat.
Proof.
  destruct (effect_run_twice_starts_two_loads initial idle loader_ok loader_ok
              eq_refl ltac:(discriminate) eq_refl eq_refl)
    as (H1 & H2 & _).
  split; [exact H1 | exact H2].
Defined.
